(** * The Bankr gateway: request handlers of the three server variants

    The repository holds three Express servers in front of the Bankr SDK
    client:
    - [Server]  : src/server.js           (validated, rate limited, logged);
    - [ProxyA]  : src/unnamed/part_000    (token-gated proxy, caller-tunable poll);
    - [ProxyB]  : src/unnamed/part_001    (token-gated proxy, fixed poll).

    A handler is embedded as a finite program over the calls it awaits on the
    SDK client ([Prog]); running it against an arbitrary downstream gives the
    calls it made, in order, and the response it rendered. *)

From stdpp Require Import base strings gmap list pretty.
From Stdlib Require Import ZArith Ascii Lia.

Local Open Scope string_scope.
Local Open Scope Z_scope.

(* The nested occurrences of [list] and [prod] in [jsval] need no generated
   scheme: its recursive functions are written by hand. *)
#[local] Set Warnings "-register-all".

(** ** JavaScript values *)

(** The values that flow through the handlers: parsed JSON bodies, SDK
    results and the objects the handlers build.  Numbers are the integral
    ones that are written without an exponent (below 10^21 in size), plus
    the non-finite results of a division.  A string is the sequence of its
    characters, one [ascii] each: texts of characters with codes below 256.
    Objects are plain data: they carry no methods of their own. *)
Inductive jsval : Type :=
| JUndefined
| JNull
| JBool (b : bool)
| JNum (n : Z)
| JNaN
| JInfinity (negative : bool)
| JBigInt (n : Z)
| JStr (s : string)
| JArr (xs : list jsval)
| JObj (fields : list (string * jsval)).

(** An [Error] object: what a failing built-in throws, and what the
    promises of the SDK client are taken to reject with in the programs
    below.  The handlers only ever read its [message].  A promise may
    reject with any other value too; what a [catch] block does with
    whatever it is handed is [catch_block], and [follow] runs a handler
    against a client that rejects with arbitrary values. *)
Record RawError : Type := { message : string }.

Definition Result (A : Type) : Type := (RawError + A)%type.

(** [o.k] on an object literal or parsed object; [undefined] when the key is
    absent or the receiver has no own properties. *)
Fixpoint assoc (k : string) (fields : list (string * jsval)) : jsval :=
  match fields with
  | [] => JUndefined
  | (k', v) :: rest => if String.eqb k k' then v else assoc k rest
  end.

Definition prop (v : jsval) (k : string) : jsval :=
  match v with
  | JObj fields => assoc k fields
  | _ => JUndefined
  end.

Definition nullish (v : jsval) : bool :=
  match v with
  | JUndefined | JNull => true
  | _ => false
  end.

(** ToBoolean. *)
Definition truthy (v : jsval) : bool :=
  match v with
  | JUndefined | JNull | JNaN => false
  | JBool b => b
  | JNum n | JBigInt n => negb (n =? 0)
  | JStr s => negb (String.eqb s "")
  | JInfinity _ | JArr _ | JObj _ => true
  end.

(** [a ?? b] *)
Definition coalesce (a b : jsval) : jsval := if nullish a then b else a.

(** [a || b] *)
Definition or_else (a b : jsval) : jsval := if truthy a then a else b.

(** [o?.k] *)
Definition opt_prop (v : jsval) (k : string) : jsval :=
  if nullish v then JUndefined else prop v k.

(** Destructuring with a default, [{ k = d } = o]: the default replaces
    [undefined] only. *)
Definition prop_default (v : jsval) (k : string) (d : jsval) : jsval :=
  match prop v k with
  | JUndefined => d
  | x => x
  end.

(** [typeof v === "string"] *)
Definition is_string (v : jsval) : bool :=
  match v with
  | JStr _ => true
  | _ => false
  end.

(** [hay.includes(needle)] on strings. *)
Fixpoint includes (needle hay : string) : bool :=
  String.prefix needle hay
  || match hay with
     | EmptyString => false
     | String _ rest => includes needle rest
     end.

(** The index arithmetic of [slice]: a negative index counts from the end,
    and both ends are clamped to the length. *)
Definition slice_index (len i : Z) : Z :=
  if i <? 0 then Z.max (len + i) 0 else Z.min i len.

(** [s.slice(start, end)] on strings; [end] is the length when omitted. *)
Definition slice (s : string) (start : Z) (stop : option Z) : string :=
  let len := Z.of_nat (String.length s) in
  let from := slice_index len start in
  let to := match stop with
            | Some e => slice_index len e
            | None => len
            end in
  String.substring (Z.to_nat from) (Z.to_nat (to - from)) s.

(** [xs.slice(start, end)] on arrays. *)
Definition slice_list {A : Type} (xs : list A) (start : Z) (stop : option Z)
  : list A :=
  let len := Z.of_nat (length xs) in
  let from := slice_index len start in
  let to := match stop with
            | Some e => slice_index len e
            | None => len
            end in
  firstn (Z.to_nat (to - from)) (skipn (Z.to_nat from) xs).

(** [s.split(sep)] for a one-character separator: the pieces between the
    separators, empty pieces included. *)
Fixpoint split (sep : ascii) (s : string) : list string :=
  match s with
  | EmptyString => [EmptyString]
  | String c rest =>
      if Ascii.eqb c sep then EmptyString :: split sep rest
      else
        match split sep rest with
        | [] => [String c EmptyString]
        | piece :: pieces => String c piece :: pieces
        end
  end.

(** An environment variable or header value is falsy when it is unset or
    the empty string. *)
Definition set_and_nonempty (o : option string) : bool :=
  match o with
  | Some s => negb (String.eqb s "")
  | None => false
  end.

(** ** Decimal integer literals *)

Definition digit_of (c : ascii) : option Z :=
  let n := Z.of_nat (nat_of_ascii c) in
  if (48 <=? n) && (n <=? 57) then Some (n - 48) else None.

Fixpoint parse_digits (acc : Z) (s : string) : option Z :=
  match s with
  | EmptyString => Some acc
  | String c rest =>
      match digit_of c with
      | Some d => parse_digits (10 * acc + d) rest
      | None => None
      end
  end.

(** The integers accepted by validator's [isInt] with its default options:
    [/^[-+]?[0-9]+$/]. *)
Definition parse_int (s : string) : option Z :=
  match s with
  | EmptyString => None
  | String "-" (String _ _ as ds) => Z.opp <$> parse_digits 0 ds
  | String "+" (String _ _ as ds) => parse_digits 0 ds
  | _ => parse_digits 0 s
  end.

(** [String(v)], which is also what [v.toString()] returns for the numbers,
    bigints and strings it is called on here. *)
Fixpoint to_string (v : jsval) : string :=
  match v with
  | JUndefined => "undefined"
  | JNull => "null"
  | JNaN => "NaN"
  | JBool true => "true"
  | JBool false => "false"
  | JNum n | JBigInt n => pretty n
  | JInfinity false => "Infinity"
  | JInfinity true => "-Infinity"
  | JStr s => s
  | JArr xs =>
      String.concat ","
        (map (fun x => if nullish x then "" else to_string x) xs)
  | JObj _ => "[object Object]"
  end.

(** The number a string denotes for the strings that reach the division of
    [POST /api/prompt-and-wait]: the empty string is 0, a decimal integer
    is its value, and the comma-separated text of an array of several
    elements is no literal.  White space, fractions, exponents, radix
    prefixes and [Infinity] make literals too; [isInt] lets none of them
    through, and they are not told apart from the texts that are no
    literal. *)
Definition string_to_number (s : string) : jsval :=
  if String.eqb s "" then JNum 0
  else
    match parse_int s with
    | Some n => JNum n
    | None => JNaN
    end.

(** ToNumber on the operands of [/]: an array or an object is first
    turned into its text. *)
Definition to_number (v : jsval) : jsval :=
  match v with
  | JNum n => JNum n
  | JStr s => string_to_number s
  | JBool b => JNum (if b then 1 else 0)
  | JNull => JNum 0
  | JInfinity s => JInfinity s
  | JArr _ | JObj _ => string_to_number (to_string v)
  | JUndefined | JNaN | JBigInt _ => JNaN
  end.

(** [Math.floor(a / b)] *)
Definition math_floor_div (a b : jsval) : jsval :=
  match to_number a, to_number b with
  | JNum x, JNum y =>
      if y =? 0
      then (if x =? 0 then JNaN else JInfinity (x <? 0))
      else JNum (x / y)
  | JNum x, JInfinity _ => JNum 0
  | JInfinity s, JNum y => JInfinity (xorb s (y <? 0))
  | _, _ => JNaN
  end.

(** ** Programs over the SDK client *)

(** The methods of the SDK's [BankrClient] that the handlers use, with the
    arguments they pass. *)
Module bankrClient.
Inductive method : Type :=
| prompt (args : jsval)
| getJobStatus (jobId : jsval)
| promptAndWait (args : jsval)
| checkAllowance (spender : jsval)
| approve (spender amount : jsval)
| getWalletAddress.
End bankrClient.

Abbreviation SdkCall := bankrClient.method.

(** A handler either answers or awaits a client call and continues with its
    outcome: the resolved value, or the error the promise rejected with. *)
Inductive Prog (A : Type) : Type :=
| Ret (a : A)
| Call (c : SdkCall) (k : Result jsval -> Prog A).

Arguments Ret {A} a.
Arguments Call {A} c k.

Fixpoint bind {A B : Type} (p : Prog A) (f : A -> Prog B) : Prog B :=
  match p with
  | Ret a => f a
  | Call c k => Call c (fun r => bind (k r) f)
  end.

(** The body of a [try] block: it may stop with a thrown error. *)
Definition Try (A : Type) : Type := Prog (Result A).

Definition pure {A : Type} (a : A) : Try A := Ret (inr a).
Definition throw {A : Type} (e : RawError) : Try A := Ret (inl e).
Definition await (c : SdkCall) : Try jsval := Call c Ret.

Definition bind_try {A B : Type} (p : Try A) (f : A -> Try B) : Try B :=
  bind p (fun r => match r with
                   | inl e => Ret (inl e)
                   | inr a => f a
                   end).

(** [try { body } catch (error) { handler }] *)
Definition try_catch {A : Type} (body : Try A) (handler : RawError -> Prog A)
  : Prog A :=
  bind body (fun r => match r with
                      | inl e => handler e
                      | inr a => Ret a
                      end).

Declare Scope try_scope.
Delimit Scope try_scope with try.
Notation "x <- p ;; q" := (bind_try p (fun x => q))
  (at level 100, p at next level, right associativity) : try_scope.
Notation "p ;;; q" := (bind_try p (fun _ => q))
  (at level 100, right associativity) : try_scope.

(** Reading a property or calling a method of [undefined] or [null] throws
    a [TypeError]. *)
Definition type_error (receiver : jsval) (k : string) : RawError :=
  {| message := "Cannot read properties of "
                +:+ (if receiver is JNull then "null" else "undefined")
                +:+ " (reading '" +:+ k +:+ "')" |}.

Definition read (v : jsval) (k : string) : Try jsval :=
  if nullish v then throw (type_error v k) else pure (prop v k).

Definition call_toString (v : jsval) : Try jsval :=
  if nullish v then throw (type_error v "toString") else pure (JStr (to_string v)).

(** The downstream: what each call resolves with, or the [Error] it rejects
    with, given the calls made before it. *)
Definition Downstream : Type := list SdkCall -> SdkCall -> Result jsval.

Fixpoint run {A : Type} (d : Downstream) (made : list SdkCall) (p : Prog A)
  : list SdkCall * A :=
  match p with
  | Ret a => (made, a)
  | Call c k => run d (made ++ [c]) (k (d made c))
  end.

Definition calls {A : Type} (d : Downstream) (p : Prog A) : list SdkCall :=
  fst (run d [] p).

Definition reply {A : Type} (d : Downstream) (p : Prog A) : A :=
  snd (run d [] p).

(** ** Requests and responses *)

Record Request : Type := {
  headers : gmap string string;
  body : jsval;
  params : jsval;
  method : string;
  originalUrl : string
}.

(** A response as the handler renders it: the status it sets and the value
    it hands to [res.json].  What Express makes of the two on the wire (the
    serialised text, a 304 to a conditional [GET]) is not modelled. *)
Record Response : Type := {
  status : Z;
  payload : jsval
}.

(** [res.status(s).json(v)] for the bodies the handlers build themselves. *)
Definition status_json (s : Z) (v : jsval) : Response :=
  {| status := s; payload := v |}.

(** [JSON.stringify] throws on a bigint, wherever it sits in the value. *)
Fixpoint has_bigint (v : jsval) : bool :=
  match v with
  | JBigInt _ => true
  | JArr xs => existsb has_bigint xs
  | JObj fields => existsb (fun kv => has_bigint (snd kv)) fields
  | _ => false
  end.

(** [res.json(v)] inside a [try] block, for a body that holds values the
    client returned: status 200, unless the body cannot be serialised. *)
Definition json (v : jsval) : Try Response :=
  if has_bigint v
  then throw {| message := "Do not know how to serialize a BigInt" |}
  else pure (status_json 200 v).

(** ** Thrown values *)

(** [catch (error)] binds whatever was thrown.  An [Error] object as a
    value, as far as the handlers read it: its [message]. *)
Definition error_object (e : RawError) : jsval :=
  JObj [("message", JStr (message e))].

(** [m.includes(p)] for a string [p]: the substring test on a string,
    membership on an array.  [undefined] and [null] have no properties,
    and no other value has the method: the call throws a [TypeError]. *)
Definition call_includes (m : jsval) (p : string) : Result bool :=
  match m with
  | JStr s => inr (includes p s)
  | JArr xs =>
      inr (existsb (fun x => if x is JStr s then String.eqb s p else false) xs)
  | JUndefined | JNull => inl (type_error m "includes")
  | _ => inl {| message := "error.message.includes is not a function" |}
  end.

(** The values that have an [includes] method: strings and arrays. *)
Definition has_includes (v : jsval) : bool :=
  match v with
  | JStr _ | JArr _ => true
  | _ => false
  end.

(** [res.status(s).json(v)] inside a [catch] block, for a body that holds
    a value read from what was caught: it throws, out of the handler, when
    the body cannot be serialised. *)
Definition send (s : Z) (v : jsval) : Result Response :=
  if has_bigint v
  then inl {| message := "Do not know how to serialize a BigInt" |}
  else inr (status_json s v).

(** ** express-validator chains *)

(** The chains are those of express-validator.  A chain holds two kinds
    of validator.  A custom validator ([isString] is one) is given the
    field as it is.  A standard validator, one of validator.js, is given a
    string, and an array is validated element by element, each element
    through its text; so the empty array passes every standard
    validator. *)
Inductive Validator : Type :=
| Custom (accepts : jsval -> bool)
| Standard (accepts : string -> bool).

(** One validator of a chain with the message reported when it fails. *)
Record Check : Type := { validator : Validator; failure : string }.

(** [body(field)] or [param(field)], made [optional()] or not, followed by
    its validators.  A chain does not stop at its first failing validator. *)
Record Chain : Type := {
  location : string;
  field : string;
  optional : bool;
  checks : list Check
}.

Record ValidationError : Type := {
  err_location : string;
  err_param : string;
  err_msg : string;
  err_value : jsval
}.

(** The text of a value that is not taken apart any further: [undefined],
    [null] and [NaN] read as the empty string, an array as its elements
    joined by commas, an object as "[object Object]", anything else as
    [String(v)].  Fields come from a parsed JSON or URL-encoded body, which
    holds no bigint; the library's conversion throws on one, and it is
    given the empty text here.  An object with a property of its own named
    [toString] is outside the model: the library reads it by its keys, or
    fails on it. *)
Definition shallow_text (v : jsval) : string :=
  match v with
  | JUndefined | JNull | JNaN | JBigInt _ => ""
  | _ => to_string v
  end.

(** The string a standard validator is handed for a value (the library's
    [toString]): a non-empty array reads as its first element. *)
Definition field_text (v : jsval) : string :=
  match v with
  | JArr (x :: _) => shallow_text x
  | _ => shallow_text v
  end.

(** The values a standard validator looks at: the elements of an array,
    the value itself otherwise. *)
Definition elements (v : jsval) : list jsval :=
  match v with
  | JArr xs => xs
  | _ => [v]
  end.

(** The values a validator reports as invalid, one error each. *)
Definition rejected (t : Validator) (v : jsval) : list jsval :=
  match t with
  | Custom accepts => if accepts v then [] else [v]
  | Standard accepts =>
      List.filter (fun x => negb (accepts (field_text x))) (elements v)
  end.

(** [isString()]: [typeof value === 'string'], on the whole value. *)
Definition isString : Validator := Custom is_string.

(** [isLength({ min, max })], counting the characters of the text. *)
Definition isLength (min max : Z) : Validator :=
  Standard (fun s =>
              let n := Z.of_nat (String.length s) in
              (min <=? n) && (n <=? max)).

Definition is_hex (c : ascii) : bool :=
  let n := Z.of_nat (nat_of_ascii c) in
  ((48 <=? n) && (n <=? 57)) || ((65 <=? n) && (n <=? 70))
  || ((97 <=? n) && (n <=? 102)).

(** [/^(0x)[0-9a-f]{40}$/i]: the prefix is matched without regard to
    case, as the digits are. *)
Definition ethereum_text (s : string) : bool :=
  match s with
  | String "0" (String x digits) =>
      (Ascii.eqb x "x" || Ascii.eqb x "X")
      && (String.length digits =? 40)%nat
      && forallb is_hex (String.list_ascii_of_string digits)
  | _ => false
  end.

(** [isEthereumAddress()] *)
Definition isEthereumAddress : Validator := Standard ethereum_text.

(** The four texts [isBoolean()] accepts. *)
Definition boolean_text (s : string) : bool :=
  String.eqb s "true" || String.eqb s "false"
  || String.eqb s "1" || String.eqb s "0".

Definition isBoolean : Validator := Standard boolean_text.

(** [/^[-+]?[0-9]+$/] with the number the text denotes within the range. *)
Definition int_text (min max : Z) (s : string) : bool :=
  match parse_int s with
  | Some n => (min <=? n) && (n <=? max)
  | None => false
  end.

(** [isInt({ min, max })] *)
Definition isInt (min max : Z) : Validator := Standard (int_text min max).

Definition source_of (loc : string) (req : Request) : jsval :=
  if String.eqb loc "params" then params req else body req.

Definition run_chain (req : Request) (c : Chain) : list ValidationError :=
  let v := prop (source_of (location c) req) (field c) in
  if optional c && (if v is JUndefined then true else false) then []
  else
    flat_map
      (fun ck =>
         map (fun x => {| err_location := location c; err_param := field c;
                          err_msg := failure ck; err_value := x |})
             (rejected (validator ck) v))
      (checks c).

(** [validationResult(req)] after the chains of a route have run. *)
Definition validationResult (chains : list Chain) (req : Request)
  : list ValidationError :=
  flat_map (run_chain req) chains.

(** [errors.array()] *)
Definition errors_array (errors : list ValidationError) : jsval :=
  JArr (map (fun e => JObj [("value", err_value e); ("msg", JStr (err_msg e));
                            ("param", JStr (err_param e));
                            ("location", JStr (err_location e))])
            errors).

(** * src/server.js *)

Module Server.

Definition facilitatorAddress : string :=
  "0x4a15fc613c713FC52E907a77071Ec2d0a392a584".

(** The default of [/api/approve]: the decimal digits of the largest uint256. *)
Definition max_uint256_literal : string :=
  "115792089237316195423570985008687907853269984665640564039457584007913129639935".

Definition requiredEnvVars : list string :=
  ["BANKR_API_KEY"; "PRIVATE_KEY"; "WALLET_ADDRESS"].

(** [truncateAddress]: the helper that shortens a wallet address for the
    log.  [slice] exists on strings and arrays only. *)
Definition truncateAddress (address : jsval) : Result jsval :=
  if negb (truthy address) then inr JNull
  else
    match address with
    | JStr s =>
        inr (JStr (slice s 0 (Some 6) +:+ "..." +:+ slice s (-4) None))
    | JArr xs =>
        inr (JStr (to_string (JArr (slice_list xs 0 (Some 6))) +:+ "..."
                   +:+ to_string (JArr (slice_list xs (-4) None))))
    | _ => inl {| message := "address.slice is not a function" |}
    end.



(** How loading the module goes: the process exits, or the load arrives at
    [app.listen(port, '0.0.0.0', ...)].  Whether the listener then comes up
    is decided by Node, which checks the port and binds it. *)
Inductive Startup : Type :=
| Exited (code : Z)
| Listen (port : jsval).

Section Process.
(** The environment of the process, the clock readings taken at start-up
    and while a response is rendered, and [process.uptime()]. *)
Variable env : gmap string string.
Variable started : string.
Variable now : string.
Variable uptime : jsval.

(** [new BankrClient(options)]: the SDK constructor may throw. *)
Variable new_BankrClient : jsval -> Result unit.

Definition env_val (k : string) : jsval :=
  match env !! k with
  | Some s => JStr s
  | None => JUndefined
  end.

(** [corsOptions.origin]: [process.env.CORS_ORIGIN || '*'] *)
Definition cors_origin : jsval := or_else (env_val "CORS_ORIGIN") (JStr "*").

Definition missingEnvVars : list string :=
  List.filter (fun envVar => negb (set_and_nonempty (env !! envVar)))
              requiredEnvVars.

Definition startup : Startup :=
  if (0 <? length missingEnvVars)%nat then Exited 1
  else
    match new_BankrClient
            (JObj [("apiKey", env_val "BANKR_API_KEY");
                   ("privateKey", env_val "PRIVATE_KEY");
                   ("walletAddress", env_val "WALLET_ADDRESS");
                   ("network", JStr "base")]) with
    | inl _ => Exited 1
    | inr _ => Listen (or_else (env_val "PORT") (JNum 3000))
    end.

(** The body the rate limiter answers with; its status is the limiter's
    default, 429. *)
Definition limiter_message : jsval :=
  JObj [("success", JBool false);
        ("error",
         JObj [("code", JStr "RATE_LIMIT_EXCEEDED");
               ("message", JStr "Too many requests, please try again later");
               ("details",
                JStr "Rate limit exceeded. Please wait before making more requests.")]);
        ("timestamp", JStr started)].

(** [handleValidationErrors]: answer 400 when a chain reported an error,
    otherwise hand over to the route's handler. *)
Definition handleValidationErrors (errors : list ValidationError)
           (next : Prog Response) : Prog Response :=
  match errors with
  | [] => next
  | _ :: _ =>
      Ret (status_json 400
             (JObj [("success", JBool false);
                    ("error",
                     JObj [("code", JStr "VALIDATION_ERROR");
                           ("message", JStr "Invalid request data");
                           ("details", errors_array errors)]);
                    ("timestamp", JStr now)]))
  end.

Definition formatErrorResponse (code message : string) (details : jsval)
  : jsval :=
  JObj [("success", JBool false);
        ("error",
         JObj [("code", JStr code);
               ("message", JStr message);
               ("details", if details is JUndefined then JNull else details)]);
        ("timestamp", JStr now)].

(** The [catch] branch of [GET /api/health]. *)
Definition health_failed (error : RawError) : Response :=
  status_json 503
    (JObj [("status", JStr "unhealthy");
           ("timestamp", JStr now);
           ("uptime", uptime);
           ("bankrConnection", JStr "disconnected");
           ("error", JStr (message error))]).

(** [GET /api/health] *)
Definition get_api_health : Prog Response :=
  try_catch
    (allowance <- await (bankrClient.checkAllowance (JStr facilitatorAddress)) ;;
     shown <- call_toString allowance ;;
     json (JObj [("status", JStr "healthy");
                 ("timestamp", JStr now);
                 ("uptime", uptime);
                 ("bankrConnection", JStr "connected");
                 ("allowance", shown)]))%try
    (fun error => Ret (health_failed error)).

Definition prompt_chains : list Chain :=
  [ {| location := "body"; field := "prompt"; optional := false;
       checks :=
         [ {| validator := isString; failure := "Invalid value" |};
           {| validator := isLength 1 10000;
              failure := "Prompt must be a string between 1 and 10000 characters" |} ] |};
    {| location := "body"; field := "walletAddress"; optional := true;
       checks :=
         [ {| validator := isEthereumAddress;
              failure := "Invalid Ethereum address format" |} ] |};
    {| location := "body"; field := "xmtp"; optional := true;
       checks :=
         [ {| validator := isBoolean; failure := "xmtp must be a boolean value" |} ] |} ].

(** The [catch] branch of [POST /api/prompt]. *)
Definition prompt_failed (error : RawError) : Response :=
  if includes "402" (message error) then
    status_json 402
      (formatErrorResponse "PAYMENT_REQUIRED"
         "Payment required for this request"
         (JStr "Ensure you have sufficient $BNKR tokens and proper allowance set"))
  else if includes "401" (message error) then
    status_json 401
      (formatErrorResponse "UNAUTHORIZED" "Invalid API key"
         (JStr "Check your Bankr API key configuration"))
  else
    status_json 500
      (formatErrorResponse "INTERNAL_ERROR" "Failed to submit prompt"
         (JStr (message error))).

(** [POST /api/prompt].  The log lines read [prompt.length] and slice
    [walletAddress], which the chains have made a string, and a string or
    an array, by then ([request_log]), and the [jobId] and [status] of the
    client's answer. *)
Definition post_api_prompt (req : Request) : Prog Response :=
  handleValidationErrors (validationResult prompt_chains req)
    (try_catch
       (let prompt := prop (body req) "prompt" in
        let walletAddress := prop (body req) "walletAddress" in
        let xmtp := prop_default (body req) "xmtp" (JBool false) in
        response <- await (bankrClient.prompt
                             (JObj [("prompt", prompt);
                                    ("walletAddress", walletAddress);
                                    ("xmtp", xmtp)])) ;;
        read response "jobId" ;;;
        read response "status" ;;;
        json response)%try
       (fun error => Ret (prompt_failed error))).

Definition job_chains : list Chain :=
  [ {| location := "params"; field := "jobId"; optional := false;
       checks :=
         [ {| validator := isString; failure := "Invalid value" |};
           {| validator := isLength 1 100;
              failure := "Job ID must be a valid string" |} ] |} ].

(** The [catch] branch of [GET /api/job/:jobId]. *)
Definition job_failed (error : RawError) : Response :=
  if includes "404" (message error) then
    status_json 404
      (formatErrorResponse "JOB_NOT_FOUND" "Job not found"
         (JStr "The specified job ID does not exist"))
  else
    status_json 500
      (formatErrorResponse "INTERNAL_ERROR" "Failed to retrieve job status"
         (JStr (message error))).

(** [GET /api/job/:jobId] *)
Definition get_api_job (req : Request) : Prog Response :=
  handleValidationErrors (validationResult job_chains req)
    (try_catch
       (let jobId := prop (params req) "jobId" in
        status <- await (bankrClient.getJobStatus jobId) ;;
        read status "status" ;;;
        json status)%try
       (fun error => Ret (job_failed error))).

Definition prompt_and_wait_chains : list Chain :=
  prompt_chains ++
  [ {| location := "body"; field := "timeout"; optional := true;
       checks :=
         [ {| validator := isInt 1000 300000;
              failure := "Timeout must be between 1000ms and 300000ms (5 minutes)" |} ] |};
    {| location := "body"; field := "interval"; optional := true;
       checks :=
         [ {| validator := isInt 1000 10000;
              failure := "Interval must be between 1000ms and 10000ms" |} ] |} ].

(** The argument of [bankrClient.promptAndWait] in
    [POST /api/prompt-and-wait]. *)
Definition prompt_and_wait_args (req : Request) : jsval :=
  let prompt := prop (body req) "prompt" in
  let walletAddress := prop (body req) "walletAddress" in
  let xmtp := prop_default (body req) "xmtp" (JBool false) in
  let timeout := prop_default (body req) "timeout" (JNum 300000) in
  let interval := prop_default (body req) "interval" (JNum 2000) in
  JObj [("prompt", prompt);
        ("walletAddress", walletAddress);
        ("xmtp", xmtp);
        ("timeout", timeout);
        ("interval", interval);
        ("maxAttempts", math_floor_div timeout interval)].

(** The [catch] branch of [POST /api/prompt-and-wait]. *)
Definition prompt_and_wait_failed (error : RawError) : Response :=
  if includes "timeout" (message error) then
    status_json 408
      (formatErrorResponse "REQUEST_TIMEOUT" "Request timed out"
         (JStr "The request took longer than the specified timeout period"))
  else if includes "402" (message error) then
    status_json 402
      (formatErrorResponse "PAYMENT_REQUIRED"
         "Payment required for this request"
         (JStr "Ensure you have sufficient $BNKR tokens and proper allowance set"))
  else
    status_json 500
      (formatErrorResponse "INTERNAL_ERROR"
         "Failed to process prompt and wait request"
         (JStr (message error))).

(** [POST /api/prompt-and-wait] *)
Definition post_api_prompt_and_wait (req : Request) : Prog Response :=
  handleValidationErrors (validationResult prompt_and_wait_chains req)
    (try_catch
       (result <- await (bankrClient.promptAndWait (prompt_and_wait_args req)) ;;
        read result "jobId" ;;;
        read result "status" ;;;
        read result "processingTime" ;;;
        json result)%try
       (fun error => Ret (prompt_and_wait_failed error))).

(** The [catch] branch of [GET /api/allowance]. *)
Definition allowance_failed (error : RawError) : Response :=
  status_json 500
    (formatErrorResponse "INTERNAL_ERROR" "Failed to check allowance"
       (JStr (message error))).

(** [GET /api/allowance] *)
Definition get_api_allowance : Prog Response :=
  try_catch
    (allowance <- await (bankrClient.checkAllowance (JStr facilitatorAddress)) ;;
     shown <- call_toString allowance ;;
     json (JObj [("success", JBool true);
                 ("allowance", shown);
                 ("facilitatorAddress", JStr facilitatorAddress);
                 ("timestamp", JStr now)]))%try
    (fun error => Ret (allowance_failed error)).

Definition approve_chains : list Chain :=
  [ {| location := "body"; field := "amount"; optional := true;
       checks :=
         [ {| validator := isString;
              failure := "Amount must be a string representation of a number" |} ] |} ].

(** The amount [POST /api/approve] asks the client to approve. *)
Definition approve_amount (req : Request) : jsval :=
  or_else (prop (body req) "amount") (JStr max_uint256_literal).

(** The [catch] branch of [POST /api/approve]. *)
Definition approve_failed (error : RawError) : Response :=
  status_json 500
    (formatErrorResponse "INTERNAL_ERROR" "Failed to approve tokens"
       (JStr (message error))).

(** [POST /api/approve] *)
Definition post_api_approve (req : Request) : Prog Response :=
  handleValidationErrors (validationResult approve_chains req)
    (try_catch
       (let amount := approve_amount req in
        approvalTx <- await (bankrClient.approve (JStr facilitatorAddress) amount) ;;
        json (JObj [("success", JBool true);
                    ("transactionHash", approvalTx);
                    ("facilitatorAddress", JStr facilitatorAddress);
                    ("amount", amount);
                    ("message",
                     JStr "Approval transaction submitted successfully");
                    ("timestamp", JStr now)]))%try
       (fun error => Ret (approve_failed error))).

(** The 404 handler for every other path. *)
Definition not_found (req : Request) : Response :=
  status_json 404
    (formatErrorResponse "NOT_FOUND" "Endpoint not found"
       (JStr ("The requested endpoint " +:+ method req +:+ " "
              +:+ originalUrl req +:+ " does not exist"))).

(** The global error handler, reached when a middleware fails. *)
Definition unhandled (error : RawError) : Response :=
  status_json 500
    (formatErrorResponse "INTERNAL_ERROR" "An unexpected error occurred"
       (if bool_decide (env !! "NODE_ENV" = Some "development")
        then JStr (message error)
        else JStr "Please try again later")).

(** The [catch] block of [POST /api/prompt] on whatever value was thrown.
    It reads [error.message] for the log and calls [includes] on it; where
    one of the two throws, the block throws in its turn: nothing is
    answered and the error leaves the handler. *)
Definition prompt_catch (error : jsval) : Result Response :=
  if nullish error then inl (type_error error "message")
  else
    let msg := prop error "message" in
    match call_includes msg "402" with
    | inl e => inl e
    | inr true =>
        inr (status_json 402
               (formatErrorResponse "PAYMENT_REQUIRED"
                  "Payment required for this request"
                  (JStr "Ensure you have sufficient $BNKR tokens and proper allowance set")))
    | inr false =>
        match call_includes msg "401" with
        | inl e => inl e
        | inr true =>
            inr (status_json 401
                   (formatErrorResponse "UNAUTHORIZED" "Invalid API key"
                      (JStr "Check your Bankr API key configuration")))
        | inr false =>
            send 500
              (formatErrorResponse "INTERNAL_ERROR" "Failed to submit prompt"
                 msg)
        end
    end.

(** The [catch] block of [GET /api/job/:jobId] on whatever was thrown. *)
Definition job_catch (error : jsval) : Result Response :=
  if nullish error then inl (type_error error "message")
  else
    let msg := prop error "message" in
    match call_includes msg "404" with
    | inl e => inl e
    | inr true =>
        inr (status_json 404
               (formatErrorResponse "JOB_NOT_FOUND" "Job not found"
                  (JStr "The specified job ID does not exist")))
    | inr false =>
        send 500
          (formatErrorResponse "INTERNAL_ERROR" "Failed to retrieve job status"
             msg)
    end.

(** The [catch] block of [POST /api/prompt-and-wait] on whatever was
    thrown. *)
Definition prompt_and_wait_catch (error : jsval) : Result Response :=
  if nullish error then inl (type_error error "message")
  else
    let msg := prop error "message" in
    match call_includes msg "timeout" with
    | inl e => inl e
    | inr true =>
        inr (status_json 408
               (formatErrorResponse "REQUEST_TIMEOUT" "Request timed out"
                  (JStr "The request took longer than the specified timeout period")))
    | inr false =>
        match call_includes msg "402" with
        | inl e => inl e
        | inr true =>
            inr (status_json 402
                   (formatErrorResponse "PAYMENT_REQUIRED"
                      "Payment required for this request"
                      (JStr "Ensure you have sufficient $BNKR tokens and proper allowance set")))
        | inr false =>
            send 500
              (formatErrorResponse "INTERNAL_ERROR"
                 "Failed to process prompt and wait request" msg)
        end
    end.

(** The [catch] blocks of [GET /api/allowance] and [POST /api/approve] on
    whatever was thrown: they read [error.message] and test nothing. *)
Definition allowance_catch (error : jsval) : Result Response :=
  if nullish error then inl (type_error error "message")
  else
    send 500
      (formatErrorResponse "INTERNAL_ERROR" "Failed to check allowance"
         (prop error "message")).

Definition approve_catch (error : jsval) : Result Response :=
  if nullish error then inl (type_error error "message")
  else
    send 500
      (formatErrorResponse "INTERNAL_ERROR" "Failed to approve tokens"
         (prop error "message")).
End Process.

(** The routes of the application. *)
Inductive Route : Type :=
| health
| prompt
| job
| prompt_and_wait
| allowance
| approve
| other.

(** The routes that reach the domain: submission, polling, allowance query
    and approval. *)
Definition business (r : Route) : bool :=
  match r with
  | prompt | job | prompt_and_wait | allowance | approve => true
  | health | other => false
  end.

(** The route's handler stack, after the shared middleware. *)
Definition handler (now : string) (uptime : jsval) (r : Route) (req : Request)
  : Prog Response :=
  match r with
  | health => get_api_health now uptime
  | prompt => post_api_prompt now req
  | job => get_api_job now req
  | prompt_and_wait => post_api_prompt_and_wait now req
  | allowance => get_api_allowance now
  | approve => post_api_approve now req
  | other => Ret (not_found now req)
  end.

(** What reaches the application for one request: whether the rate limiter
    has tripped for it, and the request as the body parsers leave it, or the
    error they failed with. *)
Record Arrival : Type := {
  limited : bool;
  parsed : Result Request
}.

(** The middleware stack in the order it is installed: rate limiter, body
    parsers, then the route; a failing middleware ends in the global error
    handler. *)
Definition app (env : gmap string string) (started now : string)
           (uptime : jsval) (r : Route) (a : Arrival) : Prog Response :=
  if limited a then Ret (status_json 429 (limiter_message started))
  else
    match parsed a with
    | inl error => Ret (unhandled env now error)
    | inr req => handler now uptime r req
    end.

End Server.

(** * The token-gated proxies *)

(** What both proxies share: how loading the module goes, and the
    [x-proxy-token] guard that opens every one of their [POST] handlers. *)
Module Proxy.

(** Loading the module throws, or arrives at [app.listen(PORT, ...)];
    whether the listener then comes up is decided by Node, which checks
    the port and binds it. *)
Inductive Startup : Type :=
| Threw (error : RawError)
| Listen (port : jsval).

Section Process.
Variable env : gmap string string.
Variable new_BankrClient : jsval -> Result unit.

Definition env_val (k : string) : jsval :=
  match env !! k with
  | Some s => JStr s
  | None => JUndefined
  end.

(** [const { PORT = 3000, ... } = process.env] *)
Definition PORT : jsval :=
  match env !! "PORT" with
  | Some s => JStr s
  | None => JNum 3000
  end.

(** The [origin] option of [cors]:
    [CORS_ORIGIN ? CORS_ORIGIN.split(",") : true] *)
Definition cors_origin : jsval :=
  match env !! "CORS_ORIGIN" with
  | Some s =>
      if String.eqb s "" then JBool true else JArr (map JStr (split "," s))
  | None => JBool true
  end.

Definition BANKR_PROXY_TOKEN : option string := env !! "BANKR_PROXY_TOKEN".

Definition client_options : jsval :=
  JObj ([("apiKey", env_val "BANKR_API_KEY");
         ("privateKey", env_val "BANKR_PRIVATE_KEY")]
        ++ (if set_and_nonempty (env !! "BANKR_BASE_URL")
            then [("baseUrl", env_val "BANKR_BASE_URL")]
            else [])).

(** Module load, with the message of the start-up guard. *)
Definition startup (guard_message : string) : Startup :=
  if negb (set_and_nonempty (env !! "BANKR_API_KEY"))
     || negb (set_and_nonempty (env !! "BANKR_PRIVATE_KEY"))
  then Threw {| message := guard_message |}
  else
    match new_BankrClient client_options with
    | inl error => Threw error
    | inr _ => Listen PORT
    end.

(** [BANKR_PROXY_TOKEN && req.get("x-proxy-token") !== BANKR_PROXY_TOKEN] *)
Definition token_rejected (req : Request) : bool :=
  set_and_nonempty BANKR_PROXY_TOKEN
  && negb (bool_decide (headers req !! "x-proxy-token" = BANKR_PROXY_TOKEN)).

Definition unauthorized : Response :=
  status_json 401 (JObj [("error", JStr "unauthorized")]).

(** The [catch] branch of every proxy handler on an [Error]:
    [res.status(500).json({ error: err?.message ?? "unknown error" })]. *)
Definition failed (err : RawError) : Response :=
  status_json 500 (JObj [("error", JStr (message err))]).

(** The same [catch] block on whatever value was thrown:
    [err?.message ?? "unknown error"] reads the message of anything. *)
Definition catch_all (err : jsval) : Result Response :=
  send 500
    (JObj [("error", coalesce (opt_prop err "message") (JStr "unknown error"))]).

(** [GET /healthz], declared ahead of the guarded routes: it looks at
    nothing of the request and asks nothing of the client. *)
Definition get_healthz (req : Request) : Prog Response :=
  Ret (status_json 200 (JObj [("ok", JBool true)])).

(** The body of a successful prompt response. *)
Definition job_view (result : jsval) : Try Response :=
  (jobId <- read result "jobId" ;;
   status <- read result "status" ;;
   response <- read result "response" ;;
   transactions <- read result "transactions" ;;
   richData <- read result "richData" ;;
   json (JObj [("jobId", jobId);
               ("status", status);
               ("response", coalesce response JNull);
               ("transactions", coalesce transactions (JArr []));
               ("richData", coalesce richData (JArr []))]))%try.
End Process.

End Proxy.

(** * src/unnamed/part_000 *)

Module ProxyA.

Section Process.
Variable env : gmap string string.
Variable new_BankrClient : jsval -> Result unit.

(** The built-in [BigInt(value)] conversion, which throws on a value that
    is not an integer literal. *)
Variable BigInt : jsval -> Result jsval.

Definition startup : Proxy.Startup :=
  Proxy.startup env new_BankrClient
    "BANKR_API_KEY and BANKR_PRIVATE_KEY are required".

(** The argument of [client.promptAndWait] in [POST /api/bankr/prompt]. *)
Definition prompt_args (req : Request) : jsval :=
  let b := coalesce (body req) (JObj []) in
  let prompt := prop b "prompt" in
  let walletAddress := prop b "walletAddress" in
  let xmtp := prop b "xmtp" in
  let poll := prop b "poll" in
  JObj [("prompt", prompt);
        ("walletAddress", walletAddress);
        ("xmtp", xmtp);
        ("interval", coalesce (opt_prop poll "interval") (JNum 2000));
        ("maxAttempts", coalesce (opt_prop poll "maxAttempts") (JNum 150));
        ("timeout", coalesce (opt_prop poll "timeout") (JNum 300000))].

(** [POST /api/bankr/prompt] *)
Definition post_api_bankr_prompt (req : Request) : Prog Response :=
  try_catch
    (if Proxy.token_rejected env req then pure Proxy.unauthorized
     else
       let prompt := prop (coalesce (body req) (JObj [])) "prompt" in
       if negb (truthy prompt) || negb (is_string prompt)
       then pure (status_json 400 (JObj [("error", JStr "prompt is required")]))
       else
         (result <- await (bankrClient.promptAndWait (prompt_args req)) ;;
          Proxy.job_view result)%try)
    (fun err => Ret (Proxy.failed err)).

(** [POST /api/bankr/approve] *)
Definition post_api_bankr_approve (req : Request) : Prog Response :=
  try_catch
    (if Proxy.token_rejected env req then pure Proxy.unauthorized
     else
       let b := coalesce (body req) (JObj []) in
       let spender := prop b "spender" in
       let amount := prop b "amount" in
       if negb (truthy spender)
       then pure (status_json 400 (JObj [("error", JStr "spender is required")]))
       else
         (converted <- (if truthy amount then Ret (BigInt amount)
                        else pure JUndefined) ;;
          txHash <- await (bankrClient.approve spender converted) ;;
          wallet <- await bankrClient.getWalletAddress ;;
          json (JObj [("txHash", txHash); ("wallet", wallet)]))%try)
    (fun err => Ret (Proxy.failed err)).
End Process.

Inductive Route : Type :=
| prompt
| approve.

Definition handler (env : gmap string string) (BigInt : jsval -> Result jsval)
           (r : Route) (req : Request) : Prog Response :=
  match r with
  | prompt => post_api_bankr_prompt env req
  | approve => post_api_bankr_approve env BigInt req
  end.

End ProxyA.

(** * src/unnamed/part_001 *)

Module ProxyB.

(** Modelled from the spec: [maxUint256] is imported from viem and not
    defined in this repository; it is the maximum representable unsigned
    256-bit value. *)
Definition maxUint256 : jsval := JBigInt (2 ^ 256 - 1).

Definition spender : string := "0x4a15fc613c713FC52E907a77071Ec2d0a392a584".

Section Process.
Variable env : gmap string string.
Variable new_BankrClient : jsval -> Result unit.

Definition startup : Proxy.Startup :=
  Proxy.startup env new_BankrClient
    "Missing BANKR_API_KEY or BANKR_PRIVATE_KEY".

(** [POST /api/bankr/approve-bnkr] *)
Definition post_api_bankr_approve_bnkr (req : Request) : Prog Response :=
  try_catch
    (if Proxy.token_rejected env req then pure Proxy.unauthorized
     else
       (txHash <- await (bankrClient.approve (JStr spender) maxUint256) ;;
        allowance <- await (bankrClient.checkAllowance (JStr spender)) ;;
        shown <- call_toString allowance ;;
        wallet <- await bankrClient.getWalletAddress ;;
        json (JObj [("txHash", txHash);
                    ("allowance", shown);
                    ("wallet", wallet)]))%try)
    (fun e => Ret (Proxy.failed e)).

(** The argument of [client.promptAndWait] in
    [POST /api/bankr/promptAndWait]. *)
Definition prompt_args (req : Request) : jsval :=
  let b := coalesce (body req) (JObj []) in
  JObj [("prompt", prop b "prompt");
        ("walletAddress", prop b "walletAddress");
        ("xmtp", prop b "xmtp");
        ("interval", JNum 2000);
        ("maxAttempts", JNum 150);
        ("timeout", JNum 300000)].

(** [POST /api/bankr/promptAndWait] *)
Definition post_api_bankr_promptAndWait (req : Request) : Prog Response :=
  try_catch
    (if Proxy.token_rejected env req then pure Proxy.unauthorized
     else
       let prompt := prop (coalesce (body req) (JObj [])) "prompt" in
       if negb (truthy prompt) || negb (is_string prompt)
       then pure (status_json 400 (JObj [("error", JStr "prompt is required")]))
       else
         (result <- await (bankrClient.promptAndWait (prompt_args req)) ;;
          Proxy.job_view result)%try)
    (fun e => Ret (Proxy.failed e)).
End Process.

Inductive Route : Type :=
| approve_bnkr
| promptAndWait.

Definition handler (env : gmap string string) (r : Route) (req : Request)
  : Prog Response :=
  match r with
  | approve_bnkr => post_api_bankr_approve_bnkr env req
  | promptAndWait => post_api_bankr_promptAndWait env req
  end.

End ProxyB.

(** * The SDK side of the contract *)

(** The integer an amount argument denotes: a bigint, an integral number or
    a string of decimal digits. *)
Definition amount_value (amount : jsval) : option Z :=
  match amount with
  | JBigInt n | JNum n => Some n
  | JStr s => parse_int s
  | _ => None
  end.

Module AllowanceGate.

(** Modelled from the spec: [approve(facilitator, amount?)] is a method of
    the SDK client, which is not part of this repository.  It "defaults
    amount to the maximum representable value when omitted"; a given amount
    is requested as it is. *)
Definition approve_requests (amount : jsval) : option Z :=
  match amount with
  | JUndefined => Some (2 ^ 256 - 1)
  | _ => amount_value amount
  end.

End AllowanceGate.

Module PollOrchestrator.

Inductive JobStatus : Type :=
| pending
| processing
| completed
| failed.

Definition terminal (s : JobStatus) : bool :=
  match s with
  | completed | failed => true
  | pending | processing => false
  end.

Record PollConfig : Type := {
  interval : Z;
  maxAttempts : Z;
  timeout : Z
}.

Inductive Outcome : Type :=
| Returned (s : JobStatus)
| TIMEOUT.

(** How an invocation ended, the status checks it performed and the time it
    spent sleeping between them. *)
Record Run : Type := {
  outcome : Outcome;
  checks : nat;
  elapsed : Z
}.

(** Modelled from the spec: the polling loop of [promptAndWait] lives in the
    SDK client, which is not part of this repository.  "Sleep for interval,
    call JobStatusFetcher, inspect status.  Repeat until status is terminal,
    attempts reach maxAttempts, or elapsed wall-clock time reaches timeout."
    [fetch k] is the status that check number [k] observes; the clock
    advances by the sleeps.  [budget] is the number of attempts left. *)
Fixpoint poll (cfg : PollConfig) (fetch : nat -> JobStatus)
         (budget attempts : nat) (clock : Z) : Run :=
  match budget with
  | O => {| outcome := TIMEOUT; checks := attempts; elapsed := clock |}
  | S budget' =>
      if timeout cfg <=? clock
      then {| outcome := TIMEOUT; checks := attempts; elapsed := clock |}
      else
        let clock' := clock + interval cfg in
        let s := fetch attempts in
        if terminal s
        then {| outcome := Returned s; checks := S attempts; elapsed := clock' |}
        else poll cfg fetch budget' (S attempts) clock'
  end.



End PollOrchestrator.

(** * Reading responses *)

(** The [error.code] of a response body, when it has one. *)
Definition error_code (r : Response) : jsval :=
  prop (prop (payload r) "error") "code".

(** A response is an error response when its status is not 200. *)
Definition is_error (r : Response) : bool := negb (status r =? 200).

(** The uniform error body:
    [{ success: false, error: { code, message, details }, timestamp }]
    with string [code], [message] and [timestamp]. *)
Definition uniform_error_body (v : jsval) : bool :=
  match v with
  | JObj [("success", JBool false);
          ("error", JObj [("code", JStr _); ("message", JStr _); ("details", _)]);
          ("timestamp", JStr _)] => true
  | _ => false
  end.

(** * Error kinds *)

(** The closed set of error kinds of the design, with the status and the
    name it gives each.  The servers have no such type: they write a status
    and a code at every response they render. *)
Inductive ErrorKind : Type :=
| PAYMENT_REQUIRED
| UNAUTHORIZED
| NOT_FOUND
| TIMEOUT
| RATE_LIMITED
| VALIDATION_ERROR
| INTERNAL.

Definition spec_status (k : ErrorKind) : Z :=
  match k with
  | PAYMENT_REQUIRED => 402
  | UNAUTHORIZED => 401
  | NOT_FOUND => 404
  | TIMEOUT => 408
  | RATE_LIMITED => 429
  | VALIDATION_ERROR => 400
  | INTERNAL => 500
  end.

Definition spec_name (k : ErrorKind) : string :=
  match k with
  | PAYMENT_REQUIRED => "PAYMENT_REQUIRED"
  | UNAUTHORIZED => "UNAUTHORIZED"
  | NOT_FOUND => "NOT_FOUND"
  | TIMEOUT => "TIMEOUT"
  | RATE_LIMITED => "RATE_LIMITED"
  | VALIDATION_ERROR => "VALIDATION_ERROR"
  | INTERNAL => "INTERNAL"
  end.

(** The kind a rendered response stands for: the one whose status it has. *)
Definition kind_of (r : Response) : option ErrorKind :=
  let s := status r in
  if s =? 402 then Some PAYMENT_REQUIRED
  else if s =? 401 then Some UNAUTHORIZED
  else if s =? 404 then Some NOT_FOUND
  else if s =? 408 then Some TIMEOUT
  else if s =? 429 then Some RATE_LIMITED
  else if s =? 400 then Some VALIDATION_ERROR
  else if s =? 500 then Some INTERNAL
  else None.

(** The codes server.js writes, each with the status it is sent with. *)
Definition code_table : list (string * Z) :=
  [("PAYMENT_REQUIRED", 402);
   ("UNAUTHORIZED", 401);
   ("JOB_NOT_FOUND", 404);
   ("REQUEST_TIMEOUT", 408);
   ("RATE_LIMIT_EXCEEDED", 429);
   ("VALIDATION_ERROR", 400);
   ("INTERNAL_ERROR", 500)].

(** The [catch] branches of the three servers and the substrings of the
    error message each one looks for, in the order it tests them. *)
Inductive Catch : Type :=
| catch_prompt
| catch_job
| catch_prompt_and_wait
| catch_allowance
| catch_approve
| catch_proxy.

Definition catch_branch (now : string) (c : Catch) (error : RawError)
  : Response :=
  match c with
  | catch_prompt => Server.prompt_failed now error
  | catch_job => Server.job_failed now error
  | catch_prompt_and_wait => Server.prompt_and_wait_failed now error
  | catch_allowance => Server.allowance_failed now error
  | catch_approve => Server.approve_failed now error
  | catch_proxy => Proxy.failed error
  end.

Definition recognised (c : Catch) : list string :=
  match c with
  | catch_prompt => ["402"; "401"]
  | catch_job => ["404"]
  | catch_prompt_and_wait => ["timeout"; "402"]
  | catch_allowance | catch_approve | catch_proxy => []
  end.

(** The same [catch] blocks on whatever value was thrown: a response, or
    the error the block throws in its turn. *)
Definition catch_block (now : string) (c : Catch) (thrown : jsval)
  : Result Response :=
  match c with
  | catch_prompt => Server.prompt_catch now thrown
  | catch_job => Server.job_catch now thrown
  | catch_prompt_and_wait => Server.prompt_and_wait_catch now thrown
  | catch_allowance => Server.allowance_catch now thrown
  | catch_approve => Server.approve_catch now thrown
  | catch_proxy => Proxy.catch_all thrown
  end.

(** The kinds a [catch] branch gives, each with the substring of the
    message that selects it, in the order the branch tests them. *)
Definition branch_table (c : Catch) : list (string * ErrorKind) :=
  match c with
  | catch_prompt => [("402", PAYMENT_REQUIRED); ("401", UNAUTHORIZED)]
  | catch_job => [("404", NOT_FOUND)]
  | catch_prompt_and_wait => [("timeout", TIMEOUT); ("402", PAYMENT_REQUIRED)]
  | catch_allowance | catch_approve | catch_proxy => []
  end.

(** The classifier of the design, over a table of patterns: the kind of
    the first pattern the message holds, INTERNAL when it holds none. *)
Fixpoint classify (table : list (string * ErrorKind)) (m : string)
  : ErrorKind :=
  match table with
  | [] => INTERNAL
  | (pattern, k) :: rest => if includes pattern m then k else classify rest m
  end.

(** A client whose promises may reject with any value: what each call
    rejects ([inl]) or resolves ([inr]) with, given the calls made before
    it. *)
Definition Client : Type := list SdkCall -> SdkCall -> jsval + jsval.

(** A downstream that rejects with [Error] objects, as a client. *)
Definition errors_only (d : Downstream) : Client :=
  fun made c =>
    match d made c with
    | inl e => inl (error_object e)
    | inr v => inr v
    end.

(** Running a handler against such a client.  Every [await] of a handler
    sits in its [try] block, so a rejection goes to the [catch] block at
    once ([caught]); [block] is that block on an arbitrary value.  The
    outcome is the response rendered, or the error that left the handler.
    Express 4, which the ['*'] route of server.js requires, does not look
    at the promise an [async] handler returns: an error that leaves the
    handler is answered by nobody. *)
Fixpoint follow (block : jsval -> Result Response) (d : Client)
         (made : list SdkCall) (p : Prog Response)
  : list SdkCall * Result Response :=
  match p with
  | Ret r => (made, inr r)
  | Call c k =>
      match d made c with
      | inl thrown => ((made ++ [c])%list, block thrown)
      | inr v => follow block d (made ++ [c])%list (k (inr v))
      end
  end.

(** * Sample requests and downstreams *)

Definition request_with (hs : gmap string string) (b : jsval) : Request :=
  {| headers := hs; body := b; params := JObj [];
     method := "POST"; originalUrl := "/api/prompt" |}.

(** A downstream that rejects every call with the same message. *)
Definition rejecting (m : string) : Downstream :=
  fun _ _ => inl {| message := m |}.

(** A downstream that resolves every call with the same value. *)
Definition resolving (v : jsval) : Downstream :=
  fun _ _ => inr v.

(** The design's rendering of an error: the status and the name of one
    kind. *)
Definition spec_rendering (r : Response) : Prop :=
  exists k, status r = spec_status k /\ error_code r = JStr (spec_name k).

(** * Statements about handlers *)

(** An error response of a server.js route carries a code of the table,
    sent with the status the table gives it. *)
Definition coded (r : Response) : Prop :=
  is_error r = true ->
  exists code, error_code r = JStr code /\ In (code, status r) code_table.

(** The [catch] branch that guards each business route of server.js. *)
Definition server_catch (r : Server.Route) : option Catch :=
  match r with
  | Server.prompt => Some catch_prompt
  | Server.job => Some catch_job
  | Server.prompt_and_wait => Some catch_prompt_and_wait
  | Server.allowance => Some catch_allowance
  | Server.approve => Some catch_approve
  | Server.health | Server.other => None
  end.

(** A rejected client call is caught at once: wherever the program awaits
    the client, a rejection with [e] ends it with the response [h e]. *)
Fixpoint caught (h : RawError -> Response) (p : Prog Response) : Prop :=
  match p with
  | Ret _ => True
  | Call _ k => (forall e, k (inl e) = Ret (h e)) /\ forall v, caught h (k (inr v))
  end.

(** Every response a program can end with satisfies [Q]. *)
Fixpoint leaves {A : Type} (Q : A -> Prop) (p : Prog A) : Prop :=
  match p with
  | Ret a => Q a
  | Call _ k => forall r, leaves Q (k r)
  end.

(** Every call a program can make satisfies [P]. *)
Fixpoint all_calls {A : Type} (P : SdkCall -> Prop) (p : Prog A) : Prop :=
  match p with
  | Ret _ => True
  | Call c k => P c /\ forall r, all_calls P (k r)
  end.

(** An error response with the uniform body. *)
Definition uniform (r : Response) : Prop :=
  is_error r = true -> uniform_error_body (payload r) = true.

(** An error response with the flat body of the proxies,
    [{ error: message }]. *)
Definition flat (r : Response) : Prop :=
  is_error r = true -> exists m, payload r = JObj [("error", JStr m)].

(** The facilitator address both server.js and part_001 write out. *)
Definition well_known_facilitator : string :=
  "0x4a15fc613c713FC52E907a77071Ec2d0a392a584".

(** An allowance query or an approval names the well-known facilitator. *)
Definition targets_facilitator (c : SdkCall) : Prop :=
  match c with
  | bankrClient.checkAllowance s | bankrClient.approve s _ =>
      s = JStr well_known_facilitator
  | _ => True
  end.

(** An approval names the given spender. *)
Definition approves_for (spender : jsval) (c : SdkCall) : Prop :=
  match c with
  | bankrClient.approve s _ => s = spender
  | _ => True
  end.

(** An approval asks for the largest uint256. *)
Definition requests_max (c : SdkCall) : Prop :=
  match c with
  | bankrClient.approve _ amount =>
      AllowanceGate.approve_requests amount = Some (2 ^ 256 - 1)
  | _ => True
  end.


(** [needle] occurs in [hay]: some text, then [needle], then some text. *)
Definition contains (needle hay : string) : Prop :=
  exists pre post, hay = pre +:+ needle +:+ post.

(** The [error.details] of a response body. *)
Definition error_details (r : Response) : jsval :=
  prop (prop (payload r) "error") "details".

(** The client call [POST /api/prompt] makes for a request. *)
Definition prompt_call (req : Request) : SdkCall :=
  bankrClient.prompt
    (JObj [("prompt", prop (body req) "prompt");
           ("walletAddress", prop (body req) "walletAddress");
           ("xmtp", prop_default (body req) "xmtp" (JBool false))]).

(** The client call [GET /api/job/:jobId] makes for a request. *)
Definition job_call (req : Request) : SdkCall :=
  bankrClient.getJobStatus (prop (params req) "jobId").

(** A program makes at most [n] client calls, whatever the client
    answers. *)
Fixpoint at_most {A : Type} (n : nat) (p : Prog A) : Prop :=
  match p with
  | Ret _ => True
  | Call _ k =>
      match n with
      | O => False
      | S n' => forall r, at_most n' (k r)
      end
  end.

(** The most client calls a route of each proxy can make. *)
Definition proxy_a_budget (r : ProxyA.Route) : nat :=
  match r with
  | ProxyA.prompt => 1
  | ProxyA.approve => 2
  end.

Definition proxy_b_budget (r : ProxyB.Route) : nat :=
  match r with
  | ProxyB.approve_bnkr => 3
  | ProxyB.promptAndWait => 1
  end.



(** A request whose route parameters hold the given job identifier. *)
Definition job_request (jobId : string) : Request :=
  {| headers := ∅; body := JObj []; params := JObj [("jobId", JStr jobId)];
     method := "GET"; originalUrl := "/api/job/" +:+ jobId |}.

(** The allowance query of the health probe and of [GET /api/allowance]. *)
Definition allowance_call : SdkCall :=
  bankrClient.checkAllowance (JStr well_known_facilitator).

(** The amount [POST /api/approve] forwards for a string [amount]: the
    string itself, or the largest uint256 when it is empty. *)
Definition forwarded_amount (s : string) : jsval :=
  JStr (if String.eqb s "" then Server.max_uint256_literal else s).

(** The body of a successful prompt answer of the proxies: the five fields,
    with a [response] that is not [undefined] and lists that are neither
    [undefined] nor [null]. *)
Definition normalised_job (v : jsval) : Prop :=
  exists jobId status response transactions richData,
    v = JObj [("jobId", jobId); ("status", status); ("response", response);
              ("transactions", transactions); ("richData", richData)]
    /\ response <> JUndefined
    /\ nullish transactions = false
    /\ nullish richData = false.

(** A 200 answer of a proxy's prompt route. *)
Definition normalised (r : Response) : Prop :=
  status r = 200 -> normalised_job (payload r).

(** The three client calls of [POST /api/bankr/approve-bnkr], in the order
    they are made. *)
Definition approve_bnkr_calls : list SdkCall :=
  [bankrClient.approve (JStr well_known_facilitator) ProxyB.maxUint256;
   bankrClient.checkAllowance (JStr well_known_facilitator);
   bankrClient.getWalletAddress].

(** The body a proxy builds from the client's answer to a prompt. *)
Definition job_body (result : jsval) : jsval :=
  JObj [("jobId", prop result "jobId");
        ("status", prop result "status");
        ("response", coalesce (prop result "response") JNull);
        ("transactions", coalesce (prop result "transactions") (JArr []));
        ("richData", coalesce (prop result "richData") (JArr []))].

(** The spender and the amount [POST /api/bankr/approve] reads from the
    request body. *)
Definition body_spender (req : Request) : jsval :=
  prop (coalesce (body req) (JObj [])) "spender".

Definition body_amount (req : Request) : jsval :=
  prop (coalesce (body req) (JObj [])) "amount".

(** The options server.js constructs its client with. *)
Definition server_client_options (env : gmap string string) : jsval :=
  JObj [("apiKey", Server.env_val env "BANKR_API_KEY");
        ("privateKey", Server.env_val env "PRIVATE_KEY");
        ("walletAddress", Server.env_val env "WALLET_ADDRESS");
        ("network", JStr "base")].

(** A 200 answer can be serialised: its body holds no bigint. *)
Definition serialisable (r : Response) : Prop :=
  status r = 200 -> has_bigint (payload r) = false.

(** A string of decimal digits. *)
Fixpoint digits_only (s : string) : bool :=
  match s with
  | EmptyString => true
  | String c rest =>
      (if digit_of c is Some _ then true else false) && digits_only rest
  end.

(** The values of [xmtp] that [isBoolean] lets through. *)
Definition boolean_like : list jsval :=
  [JBool true; JBool false; JNum 1; JNum 0;
   JStr "true"; JStr "false"; JStr "1"; JStr "0"].

(** A wallet address as [isEthereumAddress] wants it: a string of "0x" or
    "0X" and forty hexadecimal digits. *)
Definition ethereum_address (v : jsval) : Prop :=
  exists x digits,
    v = JStr (String "0" (String x digits))
    /\ (x = "x"%char \/ x = "X"%char)
    /\ String.length digits = 40%nat
    /\ forallb is_hex (String.list_ascii_of_string digits) = true.

(** A field that is absent, a number or a string: what a JSON body holds
    for a timeout or an interval that is not an array. *)
Definition number_or_text (v : jsval) : bool :=
  match v with
  | JUndefined | JNum _ | JStr _ => true
  | _ => false
  end.




(** An array all of whose elements read as a text a standard validator
    accepts. *)
Definition array_of (accepts : string -> bool) (v : jsval) : Prop :=
  exists xs, v = JArr xs /\ Forall (fun x => accepts (field_text x) = true) xs.

(** * Properties of programs *)

Lemma leaves_run {A : Type} (Q : A -> Prop) (p : Prog A) :
  leaves Q p -> forall d made, Q (snd (run d made p)).
Proof.
  induction p as [a | c k IH]; simpl; intros H d made.
  - exact H.
  - apply IH, H.
Qed.

Lemma leaves_reply {A : Type} (Q : A -> Prop) (p : Prog A) (d : Downstream) :
  leaves Q p -> Q (reply d p).
Proof. intros H. unfold reply. apply leaves_run, H. Qed.

Lemma all_calls_run {A : Type} (P : SdkCall -> Prop) (p : Prog A) :
  all_calls P p ->
  forall d made, Forall P made -> Forall P (fst (run d made p)).
Proof.
  induction p as [a | c k IH]; simpl; intros H d made Hmade.
  - exact Hmade.
  - destruct H as [Hc Hk]. apply IH; [apply Hk |].
    apply Forall_app; split; [exact Hmade | repeat constructor; exact Hc].
Qed.

Lemma all_calls_calls {A : Type} (P : SdkCall -> Prop) (p : Prog A)
      (d : Downstream) :
  all_calls P p -> Forall P (calls d p).
Proof. intros H. unfold calls. apply all_calls_run; [exact H | constructor]. Qed.

Lemma coalesce_not_nullish a d :
  nullish d = false -> nullish (coalesce a d) = false.
Proof. unfold coalesce. destruct (nullish a) eqn:E; auto. Qed.


(** The definitions a handler is made of. *)
Create HintDb handlers.
#[local] Hint Unfold
  read call_toString json pure throw await bind_try try_catch
  Server.get_api_health Server.health_failed
  Server.post_api_prompt Server.prompt_failed
  Server.get_api_job Server.job_failed
  Server.post_api_prompt_and_wait Server.prompt_and_wait_failed
  Server.get_api_allowance Server.allowance_failed
  Server.post_api_approve Server.approve_failed
  Server.not_found Server.unhandled Server.formatErrorResponse
  Proxy.job_view Proxy.failed Proxy.unauthorized
  ProxyA.post_api_bankr_prompt ProxyA.post_api_bankr_approve
  ProxyB.post_api_bankr_approve_bnkr ProxyB.post_api_bankr_promptAndWait
  : handlers.

(** Stepping through a handler: a client call may resolve or reject, a
    value read from may be nullish, a message may or may not hold a
    pattern. *)
Ltac step_handler :=
  autounfold with handlers; cbn;
  repeat (match goal with
          | |- forall _ : Result jsval, _ => intros [? | ?]
          | |- context [if ?b then _ else _] => destruct b
          | |- context [match ?x with inl _ => _ | inr _ => _ end] =>
              destruct x
          end; cbn).

Lemma handleValidationErrors_leaves (Q : Response -> Prop) now errors next :
  (forall e es, errors = e :: es ->
                leaves Q (Server.handleValidationErrors now errors (Ret (status_json 200 JNull)))) ->
  leaves Q next ->
  leaves Q (Server.handleValidationErrors now errors next).
Proof.
  intros Hbad Hnext. destruct errors as [| e es]; [exact Hnext |].
  apply (Hbad e es eq_refl).
Qed.

Ltac close_coded :=
  unfold coded; step_handler; intros H; try discriminate H;
  (eexists; split; [reflexivity | cbn; tauto]).

Lemma server_handler_coded now uptime r req :
  Server.business r = true ->
  leaves coded (Server.handler now uptime r req).
Proof.
  intros Hr. destruct r; try discriminate Hr; cbn [Server.handler].
  - apply handleValidationErrors_leaves; [intros e es -> |]; close_coded.
  - apply handleValidationErrors_leaves; [intros e es -> |]; close_coded.
  - apply handleValidationErrors_leaves; [intros e es -> |]; close_coded.
  - close_coded.
  - apply handleValidationErrors_leaves; [intros e es -> |]; close_coded.
Qed.

Lemma server_app_coded env started now uptime r a :
  Server.business r = true ->
  leaves coded (Server.app env started now uptime r a).
Proof.
  intros Hr. unfold Server.app.
  destruct (Server.limited a); [close_coded |].
  destruct (Server.parsed a) as [error | req]; [close_coded |].
  apply server_handler_coded, Hr.
Qed.

(** * Validation chains *)

(** ** Decimal texts *)

Lemma parse_digits_app (a b : string) (acc : Z) :
  parse_digits acc (a +:+ b)
  = match parse_digits acc a with
    | Some acc' => parse_digits acc' b
    | None => None
    end.
Proof.
  revert acc. induction a as [| c a IH]; intros acc; [reflexivity |].
  change (parse_digits acc (String c (a +:+ b))
          = match parse_digits acc (String c a) with
            | Some acc' => parse_digits acc' b
            | None => None
            end).
  cbn [parse_digits]. destruct (digit_of c); [apply IH | reflexivity].
Qed.

Lemma string_app_assoc (a b c : string) : (a +:+ b) +:+ c = a +:+ b +:+ c.
Proof.
  induction a as [| x a IH]; [reflexivity |].
  change (String x ((a +:+ b) +:+ c) = String x (a +:+ b +:+ c)).
  rewrite IH. reflexivity.
Qed.

Lemma pretty_N_go_app x s : pretty_N_go x s = pretty_N_go x "" +:+ s.
Proof.
  revert s. induction (N.lt_wf_0 x) as [x _ IH]; intros s.
  assert (x = 0 \/ 0 < x)%N as [-> | Hx] by lia.
  - rewrite !pretty_N_go_0. reflexivity.
  - rewrite (pretty_N_go_step x s), (pretty_N_go_step x "") by exact Hx.
    assert (Hlt : (x `div` 10 < x)%N) by (apply N.div_lt; [exact Hx | reflexivity]).
    rewrite (IH _ Hlt (String (pretty_N_char (x `mod` 10)) s)).
    rewrite (IH _ Hlt (String (pretty_N_char (x `mod` 10)) "")).
    rewrite string_app_assoc. reflexivity.
Qed.

Lemma digit_of_pretty_N_char r :
  (r < 10)%N -> digit_of (pretty_N_char r) = Some (Z.of_N r).
Proof.
  intros Hr.
  assert (r = 0 \/ r = 1 \/ r = 2 \/ r = 3 \/ r = 4 \/ r = 5 \/ r = 6
          \/ r = 7 \/ r = 8 \/ r = 9)%N as H by lia.
  repeat destruct H as [-> | H]; try subst r; reflexivity.
Qed.

Lemma parse_digits_pretty_N_go x :
  parse_digits 0 (pretty_N_go x "") = Some (Z.of_N x).
Proof.
  induction (N.lt_wf_0 x) as [x _ IH].
  assert (x = 0 \/ 0 < x)%N as [-> | Hx] by lia.
  - reflexivity.
  - rewrite pretty_N_go_step by exact Hx. rewrite pretty_N_go_app.
    rewrite parse_digits_app.
    rewrite IH by (apply N.div_lt; [exact Hx | reflexivity]).
    cbn [parse_digits].
    rewrite digit_of_pretty_N_char by (apply N.mod_lt; discriminate).
    f_equal. rewrite (N.div_mod x 10) at 3 by discriminate. lia.
Qed.

Lemma parse_int_pretty (n : Z) : parse_int (pretty n) = Some n.
Proof.
  destruct n as [| p | p].
  - reflexivity.
  - unfold pretty, pretty_Z, pretty, pretty_positive, pretty, pretty_N.
    destruct (decide (N.pos p = 0%N)) as [H | _]; [discriminate H |].
    pose proof (parse_digits_pretty_N_go (N.pos p)) as H.
    pose proof (pretty_N_go_ne_dash (N.pos p) "" "") as Hdash.
    destruct (pretty_N_go (N.pos p) "") as [| c rest] eqn:E.
    + discriminate H.
    + unfold parse_int.
      destruct (Ascii.ascii_dec c "-") as [-> | Hc].
      { cbn in H. discriminate H. }
      destruct (Ascii.ascii_dec c "+") as [-> | Hc'].
      { cbn in H. discriminate H. }
      destruct c as [[] [] [] [] [] [] [] []]; try exact H; congruence.
  - unfold pretty, pretty_Z, pretty, pretty_positive, pretty, pretty_N.
    destruct (decide (N.pos p = 0%N)) as [H | _]; [discriminate H |].
    pose proof (parse_digits_pretty_N_go (N.pos p)) as H.
    destruct (pretty_N_go (N.pos p) "") as [| c rest] eqn:E.
    + discriminate H.
    + change (parse_int (String "-" (String c rest)) = Some (Z.neg p)).
      cbn [parse_int]. rewrite H. reflexivity.
Qed.

(** ** What a chain lets through *)

Lemma filter_nil_Forall {A : Type} (f : A -> bool) (xs : list A) :
  List.filter (fun x => negb (f x)) xs = [] <-> Forall (fun x => f x = true) xs.
Proof.
  induction xs as [| x xs IH]; cbn [List.filter].
  - split; [constructor | reflexivity].
  - destruct (f x) eqn:E; cbn [negb].
    + rewrite IH. split; [intros H; constructor; assumption |].
      intros H. apply Forall_cons in H. tauto.
    + split; [discriminate |].
      intros H. apply Forall_cons in H. destruct H as [H _]. congruence.
Qed.

Lemma rejected_custom accepts v :
  rejected (Custom accepts) v = [] <-> accepts v = true.
Proof. cbn. destruct (accepts v); split; congruence. Qed.

Lemma rejected_standard accepts v :
  rejected (Standard accepts) v = []
  <-> Forall (fun x => accepts (field_text x) = true) (elements v).
Proof. apply filter_nil_Forall. Qed.

Lemma run_chain_nil req c :
  run_chain req c = []
  <-> (optional c = true
       /\ prop (source_of (location c) req) (field c) = JUndefined)
      \/ Forall (fun ck =>
                   rejected (validator ck)
                            (prop (source_of (location c) req) (field c)) = [])
                (checks c).
Proof.
  unfold run_chain.
  set (v := prop (source_of (location c) req) (field c)).
  assert (Hchecks :
            forall cks,
              flat_map
                (fun ck =>
                   map (fun x => {| err_location := location c;
                                    err_param := field c;
                                    err_msg := failure ck; err_value := x |})
                       (rejected (validator ck) v)) cks = []
              <-> Forall (fun ck => rejected (validator ck) v = []) cks).
  { induction cks as [| ck cks IH]; cbn [flat_map].
    - split; [constructor | reflexivity].
    - split.
      + intros H. apply app_eq_nil in H. destruct H as [H1 H2].
        constructor; [| apply IH, H2].
        destruct (rejected (validator ck) v); [reflexivity | discriminate H1].
      + intros H. apply Forall_cons in H. destruct H as [H1 H2].
        rewrite H1. apply IH, H2. }
  destruct (optional c); cbn [andb].
  - destruct v eqn:Ev; try (rewrite Hchecks; split; [auto | intros [[_ H] | H];
                                                         [discriminate H | exact H]]).
    split; [intros _; left; split; reflexivity | reflexivity].
  - rewrite Hchecks. split; [auto | intros [[H _] | H]; [discriminate H | exact H]].
Qed.

Lemma validationResult_nil chains req :
  validationResult chains req = []
  <-> Forall (fun c => run_chain req c = []) chains.
Proof.
  unfold validationResult. induction chains as [| c chains IH]; cbn [flat_map].
  - split; [constructor | reflexivity].
  - split.
    + intros H. apply app_eq_nil in H. destruct H as [Hc H].
      constructor; [exact Hc | apply IH, H].
    + intros H. apply Forall_cons in H. destruct H as [Hc H].
      rewrite Hc. apply IH, H.
Qed.

(** An optional field under one standard validator: absent, or every
    element reads as a text the validator accepts. *)
Lemma optional_standard_passes req f accepts msg :
  run_chain req {| location := "body"; field := f; optional := true;
                   checks := [ {| validator := Standard accepts;
                                  failure := msg |} ] |} = []
  <-> prop (body req) f = JUndefined
      \/ Forall (fun x => accepts (field_text x) = true)
                (elements (prop (body req) f)).
Proof.
  rewrite run_chain_nil. cbn [location field optional checks validator].
  change (source_of "body" req) with (body req).
  rewrite Forall_cons. cbn [validator]. rewrite rejected_standard.
  split.
  - intros [[_ H] | [H _]]; [left; exact H | right; exact H].
  - intros [H | H]; [left; split; [reflexivity | exact H] |].
    right. split; [exact H | constructor].
Qed.

(** A required field under [isString] and [isLength]: a string of a
    length within the bounds. *)
Lemma required_string_passes req loc f lo hi m1 m2 :
  run_chain req {| location := loc; field := f; optional := false;
                   checks := [ {| validator := isString; failure := m1 |};
                               {| validator := isLength lo hi; failure := m2 |} ] |}
  = []
  <-> exists s, prop (source_of loc req) f = JStr s
                /\ lo <= Z.of_nat (String.length s) <= hi.
Proof.
  rewrite run_chain_nil.
  cbn [location field optional checks validator].
  rewrite !Forall_cons. unfold isString, isLength. cbn [validator].
  rewrite rejected_custom, rejected_standard.
  split.
  - intros [[H _] | (Hs & Hl & _)]; [discriminate H |].
    destruct (prop (source_of loc req) f); try discriminate Hs.
    cbn [elements] in Hl. apply Forall_cons in Hl. destruct Hl as [Hl _].
    cbn [field_text shallow_text to_string] in Hl.
    apply andb_true_iff in Hl. destruct Hl as [H1 H2].
    apply Z.leb_le in H1, H2. eexists. split; [reflexivity | lia].
  - intros (s & -> & H1 & H2). right.
    split; [reflexivity |]. split; [| constructor].
    cbn [elements]. constructor; [| constructor].
    cbn [field_text shallow_text to_string].
    apply andb_true_iff. split; apply Z.leb_le; assumption.
Qed.

(** A number, or a string, that [isInt] accepts denotes an integer within
    the range, and that integer is what the division sees. *)
Lemma int_text_number lo hi v :
  number_or_text v = true -> v <> JUndefined ->
  Forall (fun x => int_text lo hi (field_text x) = true) (elements v) ->
  exists n, to_number v = JNum n /\ lo <= n <= hi.
Proof.
  intros Hv Hdef H.
  destruct v as [| | b | n | | neg | n | s | xs | fs];
    try discriminate Hv; try congruence;
    cbn [elements] in H; apply Forall_cons in H; destruct H as [H _];
    cbn [field_text shallow_text to_string] in H; unfold int_text in H.
  - rewrite parse_int_pretty in H. apply andb_true_iff in H.
    destruct H as [H1 H2]. apply Z.leb_le in H1, H2.
    exists n. split; [reflexivity | lia].
  - destruct (parse_int s) as [n |] eqn:E; [| discriminate H].
    apply andb_true_iff in H. destruct H as [H1 H2]. apply Z.leb_le in H1, H2.
    exists n. split; [| lia].
    cbn [to_number]. unfold string_to_number.
    destruct (String.eqb s "") eqn:Es.
    + apply String.eqb_eq in Es. subst s. discriminate E.
    + rewrite E. reflexivity.
Qed.

Lemma optional_int_validated req f lo hi msg dflt :
  run_chain req {| location := "body"; field := f; optional := true;
                   checks := [ {| validator := isInt lo hi; failure := msg |} ] |}
  = [] ->
  number_or_text (prop (body req) f) = true ->
  lo <= dflt <= hi ->
  exists n,
    to_number (prop_default (body req) f (JNum dflt)) = JNum n
    /\ lo <= n <= hi.
Proof.
  unfold isInt. rewrite optional_standard_passes. unfold prop_default.
  intros H Hv Hd.
  destruct (prop (body req) f) eqn:E; try discriminate Hv.
  - exists dflt. split; [reflexivity | exact Hd].
  - destruct H as [H | H]; [discriminate H |].
    apply (int_text_number lo hi (JNum n)); [reflexivity | discriminate | exact H].
  - destruct H as [H | H]; [discriminate H |].
    apply (int_text_number lo hi (JStr s)); [reflexivity | discriminate | exact H].
Qed.

Lemma pretty_N_char_digit x : digit_of (pretty_N_char x) <> None.
Proof. unfold pretty_N_char. repeat case_match; vm_compute; discriminate. Qed.

Lemma pretty_N_go_digits x s :
  digits_only s = true -> digits_only (pretty_N_go x s) = true.
Proof.
  revert s. induction (N.lt_wf_0 x) as [x _ IH]; intros s Hs.
  assert (x = 0 \/ 0 < x)%N as [-> | Hx] by lia.
  - rewrite pretty_N_go_0. exact Hs.
  - rewrite pretty_N_go_step by exact Hx. apply IH.
    + apply N.div_lt; [exact Hx | reflexivity].
    + cbn [digits_only]. rewrite Hs.
      pose proof (pretty_N_char_digit (x `mod` 10)%N) as Hd.
      destruct (digit_of (pretty_N_char (x `mod` 10)%N)); [reflexivity | congruence].
Qed.

Lemma pretty_Z_shape (n : Z) :
  (n = 0 /\ pretty n = "0")
  \/ (0 < n /\ digits_only (pretty n) = true)
  \/ (n < 0 /\ exists rest, pretty n = String "-" rest).
Proof.
  destruct n as [| p | p].
  - left. split; reflexivity.
  - right. left. split; [lia |].
    unfold pretty, pretty_Z, pretty, pretty_positive, pretty, pretty_N.
    destruct (decide (N.pos p = 0%N)) as [H | _]; [discriminate H |].
    apply pretty_N_go_digits. reflexivity.
  - right. right. split; [lia |]. eexists. reflexivity.
Qed.

Lemma ethereum_text_spec (s : string) :
  ethereum_text s = true
  <-> exists x digits,
        s = String "0" (String x digits)
        /\ (x = "x"%char \/ x = "X"%char)
        /\ String.length digits = 40%nat
        /\ forallb is_hex (String.list_ascii_of_string digits) = true.
Proof.
  split.
  - destruct s as [| c1 s]; [discriminate |].
    destruct (Ascii.ascii_dec c1 "0") as [-> | Hc1].
    2: { destruct c1 as [[] [] [] [] [] [] [] []]; try discriminate; congruence. }
    destruct s as [| x digits]; [discriminate |].
    cbn [ethereum_text]. intros H.
    apply andb_true_iff in H. destruct H as [H Hhex].
    apply andb_true_iff in H. destruct H as [Hx Hlen].
    apply Nat.eqb_eq in Hlen. apply orb_true_iff in Hx.
    exists x, digits. split; [reflexivity |].
    split; [| split; assumption].
    destruct Hx as [Hx | Hx]; apply Ascii.eqb_eq in Hx; auto.
  - intros (x & digits & -> & Hx & Hlen & Hhex). cbn [ethereum_text].
    rewrite Hlen, Hhex. destruct Hx as [-> | ->]; reflexivity.
Qed.

Lemma number_is_no_address (n : Z) : ethereum_text (pretty n) = false.
Proof.
  destruct (ethereum_text (pretty n)) eqn:E; [| reflexivity].
  apply ethereum_text_spec in E. destruct E as (x & digits & Ht & Hx & _).
  destruct (pretty_Z_shape n) as [[_ Hn] | [[_ Hn] | [_ [rest Hn]]]];
    rewrite Ht in Hn; try discriminate Hn.
  cbn in Hn. destruct Hx as [-> | ->]; discriminate Hn.
Qed.

(** The values that are no arrays and read as an address: the strings of
    that form. *)
Lemma address_scalar (v : jsval) :
  (forall xs, v <> JArr xs) ->
  ethereum_text (field_text v) = true <-> ethereum_address v.
Proof.
  intros Hv. unfold ethereum_address. split.
  - intros H.
    destruct v as [| | b | n | | neg | n | s | xs | fs];
      cbn [field_text shallow_text to_string] in H;
      try discriminate H.
    + destruct b; discriminate H.
    + rewrite number_is_no_address in H. discriminate H.
    + destruct neg; discriminate H.
    + apply ethereum_text_spec in H.
      destruct H as (x & digits & -> & Hx & Hlen & Hhex).
      exists x, digits. auto.
    + destruct (Hv xs eq_refl).
  - intros (x & digits & -> & Hx & Hlen & Hhex).
    cbn [field_text shallow_text to_string].
    apply ethereum_text_spec. exists x, digits. auto.
Qed.

(** The values that are no arrays and read as a boolean. *)
Lemma boolean_scalar (v : jsval) :
  (forall xs, v <> JArr xs) ->
  boolean_text (field_text v) = true <-> In v boolean_like.
Proof.
  intros Hv. split.
  - unfold boolean_text. intros H.
    repeat (apply orb_true_iff in H; destruct H as [H | H]);
      apply String.eqb_eq in H;
      destruct v as [| | b | n | | neg | n | s | xs | fs];
      cbn [field_text shallow_text to_string] in H; try discriminate H;
      try (destruct b; try discriminate H; cbn; tauto);
      try (destruct neg; discriminate H);
      try (subst s; cbn; tauto);
      try (destruct (Hv xs eq_refl));
      destruct (pretty_Z_shape n) as [[-> _] | [[Hpos Hn] | [_ [rest Hn]]]];
      try (cbn; tauto);
      try (rewrite H in Hn; discriminate Hn).
    + change "1" with (pretty 1%Z) in H. apply (inj pretty) in H.
      subst n. cbn. tauto.
    + change "0" with (pretty 0%Z) in H. apply (inj pretty) in H.
      subst n. cbn. tauto.
  - intros H. cbn in H.
    repeat destruct H as [<- | H]; try reflexivity. contradiction.
Qed.

(** What a standard validator lets through: a value that is no array and
    reads as an accepted text, or an array of such elements. *)
Lemma standard_value accepts v :
  Forall (fun x => accepts (field_text x) = true) (elements v)
  <-> ((forall xs, v <> JArr xs) /\ accepts (field_text v) = true)
      \/ array_of accepts v.
Proof.
  unfold array_of. split.
  - intros H. destruct v as [| | b | n | | neg | n | s | xs | fs];
      try (left; split; [discriminate |];
           cbn [elements] in H; apply Forall_cons in H; tauto).
    right. exists xs. split; [reflexivity | exact H].
  - intros [[Hv H] | (xs & -> & H)]; [| exact H].
    destruct v as [| | b | n | | neg | n | s | xs | fs];
      try (cbn [elements]; constructor; [exact H | constructor]).
    destruct (Hv xs eq_refl).
Qed.







(** * Claims *)

(** ** C2: the status of an error response *)

(** C2, as stated, fails.  When the downstream rejects a submission with a
    message that holds none of the patterns, [POST /api/prompt] answers 500
    with the code [INTERNAL_ERROR], which is not the name of any kind of the
    design ([INTERNAL] is). *)
Lemma internal_error_code_is_not_a_kind_name :
  let r := reply (rejecting "boom")
             (Server.app ∅ "2024-01-01T00:00:00.000Z" "2024-01-01T00:00:01.000Z"
                (JNum 1) Server.prompt
                {| Server.limited := false;
                   Server.parsed :=
                     inr (request_with ∅ (JObj [("prompt", JStr "hi")])) |}) in
  is_error r = true /\ error_code r = JStr "INTERNAL_ERROR" /\ ~ spec_rendering r.
Proof.
  cbv zeta. split; [vm_compute; reflexivity |].
  split; [vm_compute; reflexivity |].
  intros [k [Hs Hc]]. vm_compute in Hc.
  destruct k; discriminate Hc.
Qed.

(** C2, amended: every error response of a business endpoint of server.js
    carries one of the codes PAYMENT_REQUIRED, UNAUTHORIZED, JOB_NOT_FOUND,
    REQUEST_TIMEOUT, RATE_LIMIT_EXCEEDED, VALIDATION_ERROR, INTERNAL_ERROR,
    and is sent with the status [code_table] pairs with that code: 402, 401,
    404, 408, 429, 400, 500. *)
Theorem server_error_status_follows_code
        env started now uptime (r : Server.Route) (a : Server.Arrival)
        (d : Downstream) :
  Server.business r = true ->
  is_error (reply d (Server.app env started now uptime r a)) = true ->
  exists code,
    error_code (reply d (Server.app env started now uptime r a)) = JStr code
    /\ In (code, status (reply d (Server.app env started now uptime r a)))
          code_table.
Proof.
  intros Hr. apply (leaves_reply coded). apply server_app_coded, Hr.
Qed.

Lemma server_error_status_follows_code_witness :
  exists code,
    error_code
      (reply (rejecting "status 402")
         (Server.app ∅ "t0" "t1" (JNum 1) Server.prompt_and_wait
            {| Server.limited := false;
               Server.parsed :=
                 inr (request_with ∅ (JObj [("prompt", JStr "hi")])) |}))
    = JStr code
    /\ In (code,
           status
             (reply (rejecting "status 402")
                (Server.app ∅ "t0" "t1" (JNum 1) Server.prompt_and_wait
                   {| Server.limited := false;
                      Server.parsed :=
                        inr (request_with ∅ (JObj [("prompt", JStr "hi")])) |})))
          code_table.
Proof.
  apply server_error_status_follows_code; vm_compute; reflexivity.
Defined.

(** ** C3: what the [catch] blocks make of a rejection *)

Lemma catch_branch_classified now c error :
  kind_of (catch_branch now c error)
  = Some (classify (branch_table c) (message error)).
Proof.
  destruct c; unfold catch_branch; autounfold with handlers;
    cbn [branch_table classify];
    repeat match goal with
           | |- context [includes ?p ?m] => destruct (includes p m)
           end;
    reflexivity.
Qed.

Lemma classify_fallback c m :
  Forall (fun p => includes p m = false) (recognised c) ->
  classify (branch_table c) m = INTERNAL.
Proof.
  intros H. destruct c; cbn in H; cbn [branch_table classify];
    repeat match goal with
           | H : Forall _ (_ :: _) |- _ =>
               apply Forall_cons in H; destruct H as [-> H]
           end;
    reflexivity.
Qed.

Lemma catch_block_message now c v m :
  prop v "message" = JStr m ->
  catch_block now c v = inr (catch_branch now c {| message := m |}).
Proof.
  intros Hm.
  assert (Hv : nullish v = false) by (destruct v; (discriminate Hm || reflexivity)).
  destruct c; unfold catch_block, catch_branch, Server.prompt_catch,
    Server.job_catch, Server.prompt_and_wait_catch, Server.allowance_catch,
    Server.approve_catch, Proxy.catch_all, opt_prop;
    rewrite Hv, Hm; autounfold with handlers;
    cbn [call_includes message coalesce nullish];
    repeat match goal with
           | |- context [includes ?p ?m] => destruct (includes p m)
           end;
    reflexivity.
Qed.

Lemma catch_block_error now c e :
  catch_block now c (error_object e) = inr (catch_branch now c e).
Proof.
  rewrite (catch_block_message now c (error_object e) (message e)) by reflexivity.
  destruct e. reflexivity.
Qed.

Lemma proxy_block_answers v :
  has_bigint (prop v "message") = false ->
  exists r, Proxy.catch_all v = inr r /\ kind_of r = Some INTERNAL.
Proof.
  intros H. unfold Proxy.catch_all, send, opt_prop, coalesce.
  destruct (nullish v) eqn:Ev.
  - eexists. split; reflexivity.
  - destruct (nullish (prop v "message")) eqn:Em.
    + eexists. split; reflexivity.
    + cbn [has_bigint existsb snd orb]. rewrite H.
      eexists. split; reflexivity.
Qed.

Lemma server_block_throws_on_nullish now c v :
  c <> catch_proxy -> nullish v = true ->
  catch_block now c v = inl (type_error v "message").
Proof.
  intros Hc Hv.
  destruct c; try congruence;
    unfold catch_block, Server.prompt_catch, Server.job_catch,
      Server.prompt_and_wait_catch, Server.allowance_catch,
      Server.approve_catch;
    rewrite Hv; reflexivity.
Qed.

Lemma cascade_throws_without_includes now c v :
  branch_table c <> [] ->
  has_includes (prop v "message") = false ->
  exists e, catch_block now c v = inl e.
Proof.
  intros Hc Hm.
  destruct c; try (cbn in Hc; congruence);
    unfold catch_block, Server.prompt_catch, Server.job_catch,
      Server.prompt_and_wait_catch;
    (destruct (nullish v); [eexists; reflexivity |]);
    destruct (prop v "message"); try discriminate Hm;
    eexists; reflexivity.
Qed.

Ltac step_caught :=
  autounfold with handlers; cbn;
  repeat (match goal with
          | |- True => exact I
          | |- _ /\ _ => split
          | |- forall _ : RawError, _ = _ => intros; reflexivity
          | |- forall _ : jsval, _ => intro
          | |- context [if ?b then _ else _] => destruct b
          | |- context [match ?x with inl _ => _ | inr _ => _ end] =>
              destruct x
          end; cbn).

Lemma server_handler_caught now uptime r c req :
  server_catch r = Some c ->
  caught (catch_branch now c) (Server.handler now uptime r req).
Proof.
  intros Hc.
  destruct r; inversion Hc; subst c; cbn [Server.handler];
    autounfold with handlers; unfold Server.handleValidationErrors;
    try destruct (validationResult _ _); step_caught.
Qed.

Lemma proxy_a_caught env BigInt r req :
  caught (catch_branch "" catch_proxy) (ProxyA.handler env BigInt r req).
Proof. destruct r; cbn [ProxyA.handler]; step_caught. Qed.

Lemma proxy_b_caught env r req :
  caught (catch_branch "" catch_proxy) (ProxyB.handler env r req).
Proof. destruct r; cbn [ProxyB.handler]; step_caught. Qed.

(** Against a client that rejects with [Error] objects only, following a
    handler with its [catch] block on arbitrary values is running it. *)
Lemma follow_errors_only (h : RawError -> Response)
      (block : jsval -> Result Response) (p : Prog Response) :
  caught h p ->
  (forall e, block (error_object e) = inr (h e)) ->
  forall d made,
    follow block (errors_only d) made p
    = (fst (run d made p), inr (snd (run d made p))).
Proof.
  induction p as [r | c k IH]; cbn [follow run caught]; intros Hc Hb d made.
  - reflexivity.
  - destruct Hc as [Hrej Hres]. unfold errors_only at 1.
    destruct (d made c) as [e | v].
    + rewrite Hrej. cbn [run fst snd]. rewrite Hb. reflexivity.
    + apply IH; [apply Hres | exact Hb].
Qed.

(** C3: classification is not total in server.js.  The client rejects
    the submission of [POST /api/prompt] with [{ status: 402 }], an error
    that signals HTTP 402 and carries no message.  The [catch] block reads
    [error.message], which is [undefined], and calls [includes] on it: a
    [TypeError] is thrown inside the block, so after the one submission
    nothing is answered, no kind is assigned and the error leaves the
    handler.  The [catch] block of the proxies answers 500 for the same
    value. *)
Lemma rejection_without_message_leaves_the_handler :
  let req := request_with ∅ (JObj [("prompt", JStr "hi")]) in
  let thrown := JObj [("status", JNum 402)] in
  let d : Client := fun _ _ => inl thrown in
  validationResult Server.prompt_chains req = []
  /\ follow (catch_block "t1" catch_prompt) d []
            (Server.handler "t1" (JNum 1) Server.prompt req)
     = ([prompt_call req],
        inl {| message :=
                 "Cannot read properties of undefined (reading 'includes')" |})
  /\ catch_block "t1" catch_proxy thrown
     = inr (status_json 500 (JObj [("error", JStr "unknown error")])).
Proof. vm_compute. repeat split; reflexivity. Qed.

(** ** C9: timeout before payment in prompt-and-wait *)




(** ** C8: the shape of error bodies *)

Ltac close_shape :=
  step_handler; intros H; try discriminate H; try reflexivity;
  try (eexists; reflexivity).

Lemma server_app_uniform env started now uptime r a :
  r <> Server.health ->
  leaves uniform (Server.app env started now uptime r a).
Proof.
  intros Hr. unfold Server.app, uniform.
  destruct (Server.limited a); [close_shape |].
  destruct (Server.parsed a) as [error | req]; [close_shape |].
  destruct r; try congruence; cbn [Server.handler];
    try (apply handleValidationErrors_leaves; [intros e es -> |]);
    close_shape.
Qed.

Lemma proxy_a_flat env BigInt r req :
  leaves flat (ProxyA.handler env BigInt r req).
Proof. unfold flat. destruct r; cbn [ProxyA.handler]; close_shape. Qed.

Lemma proxy_b_flat env r req :
  leaves flat (ProxyB.handler env r req).
Proof. unfold flat. destruct r; cbn [ProxyB.handler]; close_shape. Qed.

(** C8, as stated, fails.  The [catch] branch of [POST /api/bankr/prompt]
    answers 500 with the body [{ error: "boom" }]: the error is a string,
    not an object with a code, and there is neither [success] nor
    [timestamp]. *)
Lemma proxy_error_body_is_not_uniform :
  let r := reply (rejecting "boom")
             (ProxyA.handler ∅ (fun v => inr v) ProxyA.prompt
                (request_with ∅ (JObj [("prompt", JStr "hi")]))) in
  is_error r = true
  /\ payload r = JObj [("error", JStr "boom")]
  /\ uniform_error_body (payload r) = false.
Proof. vm_compute. repeat split; reflexivity. Qed.

Lemma catch_block_shape now c v r :
  catch_block now c v = inr r ->
  if c is catch_proxy
  then status r = 500
       /\ exists m, payload r = JObj [("error", m)] /\ nullish m = false
  else uniform_error_body (payload r) = true.
Proof.
  destruct c; unfold catch_block, Server.prompt_catch, Server.job_catch,
    Server.prompt_and_wait_catch, Server.allowance_catch,
    Server.approve_catch, Proxy.catch_all, send;
    repeat match goal with
           | |- context [if ?b then _ else _] => destruct b eqn:?
           | |- context [match call_includes ?m ?p with _ => _ end] =>
               destruct (call_includes m p) as [? | []]
           end;
    intros H; try discriminate H; injection H as <-; try reflexivity.
  split; [reflexivity |]. eexists. split; [reflexivity |].
  apply coalesce_not_nullish. reflexivity.
Qed.

(** C8, amended: every error response of server.js outside the health
    probe, on every business endpoint and on unknown paths, whether it
    comes from the rate limiter, the validation middleware, a [catch]
    branch, the 404 handler or the global error handler, has the body
    [{ success: false, error: { code, message, details }, timestamp }];
    every error response that one of the four handlers of the two proxies
    renders (401, 400, 500) has the body [{ error: message }].  The same
    holds of what a [catch] block answers to any thrown value: the
    uniform body in server.js, and in the proxies status 500 with an
    [error] that is neither [undefined] nor [null].  What Express itself
    answers for the proxies, which install neither a 404 handler nor an
    error handler (unknown paths, bodies that [express.json()] refuses),
    is outside this statement. *)
Theorem error_bodies_by_server
        env started now uptime
        (r : Server.Route) (a : Server.Arrival)
        (BigInt : jsval -> Result jsval)
        (ra : ProxyA.Route) (rb : ProxyB.Route) (req : Request)
        (d : Downstream) :
  (r <> Server.health ->
   is_error (reply d (Server.app env started now uptime r a)) = true ->
   uniform_error_body
     (payload (reply d (Server.app env started now uptime r a))) = true)
  /\ (is_error (reply d (ProxyA.handler env BigInt ra req)) = true ->
      exists m, payload (reply d (ProxyA.handler env BigInt ra req))
                = JObj [("error", JStr m)])
  /\ (is_error (reply d (ProxyB.handler env rb req)) = true ->
      exists m, payload (reply d (ProxyB.handler env rb req))
                = JObj [("error", JStr m)])
  /\ (forall c thrown answer,
         c <> catch_proxy ->
         catch_block now c thrown = inr answer ->
         uniform_error_body (payload answer) = true)
  /\ (forall thrown answer,
         catch_block now catch_proxy thrown = inr answer ->
         status answer = 500
         /\ exists m, payload answer = JObj [("error", m)]
                      /\ nullish m = false).
Proof.
  split; [| split; [| split; [| split]]].
  - intros Hr. apply (leaves_reply uniform), server_app_uniform, Hr.
  - apply (leaves_reply flat), proxy_a_flat.
  - apply (leaves_reply flat), proxy_b_flat.
  - intros c thrown answer Hc H.
    pose proof (catch_block_shape now c thrown answer H) as Hshape.
    destruct c; try exact Hshape. congruence.
  - intros thrown answer H.
    apply (catch_block_shape now catch_proxy thrown answer H).
Qed.

(** ** C5: the shared-secret gate *)

Lemma token_rejected_true env req secret :
  env !! "BANKR_PROXY_TOKEN" = Some secret ->
  secret <> "" ->
  headers req !! "x-proxy-token" <> Some secret ->
  Proxy.token_rejected env req = true.
Proof.
  intros Henv Hne Hhdr.
  unfold Proxy.token_rejected, Proxy.BANKR_PROXY_TOKEN. rewrite Henv. cbn.
  apply andb_true_iff. split.
  - apply negb_true_iff, String.eqb_neq, Hne.
  - apply negb_true_iff, bool_decide_eq_false, Hhdr.
Qed.

(** C5, as stated, fails.  server.js never reads a proxy secret: with
    BANKR_PROXY_TOKEN set in the environment and no [x-proxy-token] header
    on the request, [POST /api/prompt] submits the prompt downstream and
    answers 200. *)
Lemma server_has_no_token_gate :
  let env : gmap string string := <["BANKR_PROXY_TOKEN" := "s3cret"]> ∅ in
  let req := request_with ∅ (JObj [("prompt", JStr "hi")]) in
  let d := resolving (JObj [("jobId", JStr "job_1"); ("status", JStr "pending")]) in
  let p := Server.app env "t0" "t1" (JNum 1) Server.prompt
             {| Server.limited := false; Server.parsed := inr req |} in
  env !! "BANKR_PROXY_TOKEN" = Some "s3cret"
  /\ headers req !! "x-proxy-token" = None
  /\ status (reply d p) = 200
  /\ calls d p
     = [bankrClient.prompt
          (JObj [("prompt", JStr "hi"); ("walletAddress", JUndefined);
                 ("xmtp", JBool false)])].
Proof. vm_compute. repeat split; reflexivity. Qed.

(** C5, amended: in the two proxies (part_000 and part_001), when
    BANKR_PROXY_TOKEN is set to a non-empty secret, a request that reaches
    the handler of one of their four [POST] endpoints
    ([/api/bankr/prompt], [/api/bankr/approve], [/api/bankr/approve-bnkr],
    [/api/bankr/promptAndWait]) with an [x-proxy-token] header that is
    absent or differs from the secret is answered 401 and no client call
    is made.  [GET /healthz] is not behind the gate: it is answered 200
    whatever the header, and calls nothing.  A request whose body
    [express.json()] refuses reaches no handler and is outside this
    statement.  server.js has no such gate. *)
Theorem proxy_token_gate
        (env : gmap string string) (BigInt : jsval -> Result jsval)
        (ra : ProxyA.Route) (rb : ProxyB.Route) (req : Request)
        (d : Downstream) (secret : string) :
  env !! "BANKR_PROXY_TOKEN" = Some secret ->
  secret <> "" ->
  headers req !! "x-proxy-token" <> Some secret ->
  (status (reply d (ProxyA.handler env BigInt ra req)) = 401
   /\ calls d (ProxyA.handler env BigInt ra req) = [])
  /\ (status (reply d (ProxyB.handler env rb req)) = 401
      /\ calls d (ProxyB.handler env rb req) = [])
  /\ (status (reply d (Proxy.get_healthz req)) = 200
      /\ calls d (Proxy.get_healthz req) = []).
Proof.
  intros Henv Hne Hhdr.
  pose proof (token_rejected_true env req secret Henv Hne Hhdr) as Hrej.
  split; [| split].
  - destruct ra; cbn [ProxyA.handler]; autounfold with handlers;
      rewrite Hrej; split; reflexivity.
  - destruct rb; cbn [ProxyB.handler]; autounfold with handlers;
      rewrite Hrej; split; reflexivity.
  - split; reflexivity.
Qed.

Lemma proxy_token_gate_witness :
  (status (reply (resolving JNull)
             (ProxyA.handler (<["BANKR_PROXY_TOKEN" := "s3cret"]> ∅)
                (fun v => inr v) ProxyA.approve
                (request_with (<["x-proxy-token" := "guess"]> ∅)
                   (JObj [("spender", JStr "0xabc")])))) = 401
   /\ calls (resolving JNull)
        (ProxyA.handler (<["BANKR_PROXY_TOKEN" := "s3cret"]> ∅)
           (fun v => inr v) ProxyA.approve
           (request_with (<["x-proxy-token" := "guess"]> ∅)
              (JObj [("spender", JStr "0xabc")]))) = [])
  /\ (status (reply (resolving JNull)
                (ProxyB.handler (<["BANKR_PROXY_TOKEN" := "s3cret"]> ∅)
                   ProxyB.promptAndWait
                   (request_with (<["x-proxy-token" := "guess"]> ∅)
                      (JObj [("spender", JStr "0xabc")])))) = 401
      /\ calls (resolving JNull)
           (ProxyB.handler (<["BANKR_PROXY_TOKEN" := "s3cret"]> ∅)
              ProxyB.promptAndWait
              (request_with (<["x-proxy-token" := "guess"]> ∅)
                 (JObj [("spender", JStr "0xabc")]))) = []).
Proof.
  pose proof (proxy_token_gate (<["BANKR_PROXY_TOKEN" := "s3cret"]> ∅)
                (fun v => inr v) ProxyA.approve ProxyB.promptAndWait
                (request_with (<["x-proxy-token" := "guess"]> ∅)
                   (JObj [("spender", JStr "0xabc")]))
                (resolving JNull) "s3cret") as H.
  destruct H as (Ha & Hb & _).
  - vm_compute. reflexivity.
  - discriminate.
  - vm_compute. discriminate.
  - split; [exact Ha | exact Hb].
Defined.

(** ** C6: validation before any downstream call *)






(** ** C7: the spender of the allowance *)

Ltac step_calls :=
  autounfold with handlers; cbn;
  repeat (match goal with
          | |- True => exact I
          | |- _ /\ _ => split
          | |- forall _ : Result jsval, _ => intros [? | ?]
          | |- context [if ?b then _ else _] => destruct b
          | |- context [match ?x with inl _ => _ | inr _ => _ end] =>
              destruct x
          | |- JStr _ = JStr _ => reflexivity
          end; cbn).

Lemma server_handler_targets now uptime r req :
  all_calls targets_facilitator (Server.handler now uptime r req).
Proof.
  destruct r; cbn [Server.handler]; autounfold with handlers;
    unfold Server.handleValidationErrors;
    try destruct (validationResult _ _); step_calls.
Qed.

Lemma proxy_b_targets env r req :
  all_calls targets_facilitator (ProxyB.handler env r req).
Proof. destruct r; cbn [ProxyB.handler]; step_calls. Qed.

Lemma proxy_a_approves_for_caller env BigInt req :
  all_calls (approves_for (prop (coalesce (body req) (JObj [])) "spender"))
            (ProxyA.post_api_bankr_approve env BigInt req).
Proof. step_calls; reflexivity. Qed.

(** C7, as stated, fails.  [POST /api/bankr/approve] of part_000 approves
    whatever spender the request body names. *)
Lemma proxy_approve_spender_is_the_callers :
  let p := ProxyA.handler ∅ (fun v => inr v) ProxyA.approve
             (request_with ∅
                (JObj [("spender",
                        JStr "0x000000000000000000000000000000000000dEaD")])) in
  calls (resolving (JStr "0xtx")) p
  = [bankrClient.approve
       (JStr "0x000000000000000000000000000000000000dEaD") JUndefined;
     bankrClient.getWalletAddress]
  /\ ~ Forall targets_facilitator (calls (resolving (JStr "0xtx")) p).
Proof.
  cbv zeta. split; [vm_compute; reflexivity |].
  intros H. vm_compute in H. apply Forall_inv in H. discriminate H.
Qed.

(** C7, amended: every allowance query and every approval made by
    server.js (health probe, [/api/allowance], [/api/approve]) and by
    part_001 ([/api/bankr/approve-bnkr]) names the fixed facilitator
    0x4a15fc613c713FC52E907a77071Ec2d0a392a584, and [GET /api/allowance]
    does query it; [POST /api/bankr/approve] of part_000 approves the
    spender named in the request body. *)
Theorem spender_by_server
        (now : string) (uptime : jsval) (env : gmap string string)
        (BigInt : jsval -> Result jsval)
        (r : Server.Route) (rb : ProxyB.Route) (req : Request)
        (d : Downstream) :
  Forall targets_facilitator (calls d (Server.handler now uptime r req))
  /\ calls d (Server.get_api_allowance now)
     = [bankrClient.checkAllowance (JStr well_known_facilitator)]
  /\ Forall targets_facilitator (calls d (ProxyB.handler env rb req))
  /\ Forall (approves_for (prop (coalesce (body req) (JObj [])) "spender"))
            (calls d (ProxyA.post_api_bankr_approve env BigInt req)).
Proof.
  split; [| split; [| split]].
  - apply all_calls_calls, server_handler_targets.
  - unfold calls, Server.get_api_allowance. autounfold with handlers. cbn.
    destruct (d [] _) as [e | v]; cbn; [reflexivity |].
    destruct (nullish v); reflexivity.
  - apply all_calls_calls, proxy_b_targets.
  - apply all_calls_calls, proxy_a_approves_for_caller.
Qed.

(** ** C4: the default approval amount *)

Lemma max_literal_value :
  AllowanceGate.approve_requests (JStr Server.max_uint256_literal)
  = Some (2 ^ 256 - 1).
Proof. vm_compute. reflexivity. Qed.

Lemma maxUint256_value :
  AllowanceGate.approve_requests ProxyB.maxUint256 = Some (2 ^ 256 - 1).
Proof. reflexivity. Qed.

Lemma calls_Call {A : Type} (d : Downstream) (made : list SdkCall)
      (p : Prog A) :
  exists rest : list SdkCall, fst (run d made p) = (made ++ rest)%list.
Proof.
  revert made. induction p as [a | c k IH]; intros made; cbn.
  - exists []. symmetry. apply app_nil_r.
  - destruct (IH (d made c) (made ++ [c])%list) as [rest ->].
    exists (c :: rest). rewrite <- app_assoc. reflexivity.
Qed.

Lemma server_approve_calls now req d :
  prop (body req) "amount" = JUndefined ->
  calls d (Server.post_api_approve now req)
  = [bankrClient.approve (JStr Server.facilitatorAddress)
                         (JStr Server.max_uint256_literal)].
Proof.
  intros Hamount.
  unfold calls, Server.post_api_approve, Server.approve_amount,
    validationResult, Server.approve_chains.
  cbn [flat_map app]. unfold run_chain.
  cbn [location field optional checks source_of String.eqb Ascii.eqb
       Bool.eqb andb].
  rewrite Hamount. cbn [andb app Server.handleValidationErrors or_else truthy].
  autounfold with handlers. cbn [bind run app].
  destruct (d [] _) as [e | v]; [reflexivity |].
  cbn [bind]. destruct (has_bigint _); reflexivity.
Qed.

Lemma proxy_b_requests_max env req :
  all_calls requests_max (ProxyB.post_api_bankr_approve_bnkr env req).
Proof.
  autounfold with handlers. unfold requests_max.
  destruct (Proxy.token_rejected env req); cbn [bind all_calls];
    [exact I |].
  split; [exact maxUint256_value |].
  intros [e | txHash]; cbn [bind all_calls]; [exact I |].
  split; [exact I |].
  intros [e | allowance]; cbn [bind all_calls]; [exact I |].
  destruct (nullish allowance); cbn [bind all_calls]; [exact I |].
  split; [exact I |].
  intros [e | wallet]; cbn [bind all_calls]; [exact I |].
  destruct (has_bigint _); exact I.
Qed.

Lemma proxy_a_requests_max env BigInt req :
  prop (coalesce (body req) (JObj [])) "amount" = JUndefined ->
  all_calls requests_max (ProxyA.post_api_bankr_approve env BigInt req).
Proof.
  intros Hamount. autounfold with handlers. rewrite Hamount.
  unfold requests_max.
  destruct (Proxy.token_rejected env req); cbn [bind all_calls];
    [exact I |].
  destruct (negb _); cbn [bind all_calls truthy]; [exact I |].
  split; [reflexivity |].
  intros [e | txHash]; cbn [bind all_calls]; [exact I |].
  split; [exact I |].
  intros [e | wallet]; cbn [bind all_calls]; [exact I |].
  destruct (has_bigint _); exact I.
Qed.

(** C4: when the request names no amount, the approval asks for exactly
    2^256 - 1.  server.js passes the decimal digits of that value to the
    client; part_001 passes [maxUint256] whatever the body holds; part_000
    passes [undefined] and leaves the default to the client, which takes
    the maximum. *)
Theorem approve_defaults_to_max_uint256
        (now : string) (env : gmap string string)
        (BigInt : jsval -> Result jsval) (req : Request) (d : Downstream) :
  (prop (body req) "amount" = JUndefined ->
   calls d (Server.post_api_approve now req)
   = [bankrClient.approve (JStr Server.facilitatorAddress)
                          (JStr Server.max_uint256_literal)]
   /\ Forall requests_max (calls d (Server.post_api_approve now req)))
  /\ (Forall requests_max (calls d (ProxyB.post_api_bankr_approve_bnkr env req))
      /\ (Proxy.token_rejected env req = false ->
          exists rest,
            calls d (ProxyB.post_api_bankr_approve_bnkr env req)
            = bankrClient.approve (JStr ProxyB.spender) ProxyB.maxUint256 :: rest))
  /\ (prop (coalesce (body req) (JObj [])) "amount" = JUndefined ->
      Forall requests_max (calls d (ProxyA.post_api_bankr_approve env BigInt req))
      /\ (Proxy.token_rejected env req = false ->
          truthy (prop (coalesce (body req) (JObj [])) "spender") = true ->
          exists rest,
            calls d (ProxyA.post_api_bankr_approve env BigInt req)
            = bankrClient.approve
                (prop (coalesce (body req) (JObj [])) "spender") JUndefined
              :: rest)).
Proof.
  split; [| split].
  - intros Hamount. rewrite (server_approve_calls now req d Hamount).
    split; [reflexivity |].
    constructor; [exact max_literal_value | constructor].
  - split; [apply all_calls_calls, proxy_b_requests_max |].
    intros Htok. unfold calls. autounfold with handlers. rewrite Htok.
    cbn [bind run app].
    match goal with
    | |- context [run d ?made ?p] =>
        destruct (calls_Call d made p) as [rest ->]
    end.
    exists rest. reflexivity.
  - intros Hamount.
    split; [apply all_calls_calls, proxy_a_requests_max, Hamount |].
    intros Htok Hspender. unfold calls. autounfold with handlers.
    rewrite Htok, Hamount, Hspender. cbn [negb truthy bind run app].
    match goal with
    | |- context [run d ?made ?p] =>
        destruct (calls_Call d made p) as [rest ->]
    end.
    exists rest. reflexivity.
Qed.

Lemma approve_defaults_to_max_uint256_witness :
  calls (resolving (JStr "0xtx"))
    (Server.post_api_approve "t1" (request_with ∅ (JObj [])))
  = [bankrClient.approve (JStr Server.facilitatorAddress)
                         (JStr Server.max_uint256_literal)]
  /\ exists rest,
      calls (resolving (JStr "0xtx"))
        (ProxyA.post_api_bankr_approve ∅ (fun v => inr v)
           (request_with ∅ (JObj [("spender", JStr "0xabc")])))
      = bankrClient.approve (JStr "0xabc") JUndefined :: rest.
Proof.
  split.
  - apply (approve_defaults_to_max_uint256 "t1" ∅ (fun v => inr v)
             (request_with ∅ (JObj [])) (resolving (JStr "0xtx"))).
    reflexivity.
  - apply (approve_defaults_to_max_uint256 "t1" ∅ (fun v => inr v)
             (request_with ∅ (JObj [("spender", JStr "0xabc")]))
             (resolving (JStr "0xtx")));
      reflexivity.
Defined.

(** ** C10: start-up without credentials *)

(** C10: none of the servers starts listening without its credentials.
    server.js exits with status 1 when BANKR_API_KEY, PRIVATE_KEY or
    WALLET_ADDRESS is unset (or empty); the proxies throw when
    BANKR_API_KEY or BANKR_PRIVATE_KEY is. *)
Theorem startup_requires_credentials
        (env : gmap string string) (new_BankrClient : jsval -> Result unit) :
  (set_and_nonempty (env !! "BANKR_API_KEY") = false
   \/ set_and_nonempty (env !! "PRIVATE_KEY") = false
   \/ set_and_nonempty (env !! "WALLET_ADDRESS") = false ->
   Server.startup env new_BankrClient = Server.Exited 1)
  /\ (set_and_nonempty (env !! "BANKR_API_KEY") = false
      \/ set_and_nonempty (env !! "BANKR_PRIVATE_KEY") = false ->
      ProxyA.startup env new_BankrClient
      = Proxy.Threw
          {| message := "BANKR_API_KEY and BANKR_PRIVATE_KEY are required" |}
      /\ ProxyB.startup env new_BankrClient
         = Proxy.Threw
             {| message := "Missing BANKR_API_KEY or BANKR_PRIVATE_KEY" |}).
Proof.
  split.
  - intros H. unfold Server.startup, Server.missingEnvVars,
      Server.requiredEnvVars. cbn [List.filter].
    destruct (set_and_nonempty (env !! "BANKR_API_KEY"));
      destruct (set_and_nonempty (env !! "PRIVATE_KEY"));
      destruct (set_and_nonempty (env !! "WALLET_ADDRESS"));
      try reflexivity.
    destruct H as [H | [H | H]]; discriminate H.
  - intros H. unfold ProxyA.startup, ProxyB.startup, Proxy.startup.
    destruct (set_and_nonempty (env !! "BANKR_API_KEY"));
      destruct (set_and_nonempty (env !! "BANKR_PRIVATE_KEY"));
      try (split; reflexivity).
    destruct H as [H | H]; discriminate H.
Qed.

Lemma startup_requires_credentials_witness :
  Server.startup (<["BANKR_API_KEY" := "key"]> (<["PRIVATE_KEY" := "0x01"]> ∅))
                 (fun _ => inr tt)
  = Server.Exited 1
  /\ ProxyA.startup (<["BANKR_API_KEY" := "key"]> (<["PRIVATE_KEY" := "0x01"]> ∅))
                    (fun _ => inr tt)
     = Proxy.Threw
         {| message := "BANKR_API_KEY and BANKR_PRIVATE_KEY are required" |}.
Proof.
  pose proof (startup_requires_credentials
                (<["BANKR_API_KEY" := "key"]> (<["PRIVATE_KEY" := "0x01"]> ∅))
                (fun _ => inr tt)) as [Hs Hp].
  split.
  - apply Hs. right. right. vm_compute. reflexivity.
  - apply Hp. right. vm_compute. reflexivity.
Defined.

(** ** C1: the two bounds of the polling loop *)

Lemma server_args_timeout req :
  prop (Server.prompt_and_wait_args req) "timeout"
  = prop_default (body req) "timeout" (JNum 300000).
Proof. reflexivity. Qed.

Lemma server_args_interval req :
  prop (Server.prompt_and_wait_args req) "interval"
  = prop_default (body req) "interval" (JNum 2000).
Proof. reflexivity. Qed.

Lemma server_args_maxAttempts req :
  prop (Server.prompt_and_wait_args req) "maxAttempts"
  = math_floor_div (prop (Server.prompt_and_wait_args req) "timeout")
                   (prop (Server.prompt_and_wait_args req) "interval").
Proof. reflexivity. Qed.

Lemma server_cap_is_derived req :
  validationResult Server.prompt_and_wait_chains req = [] ->
  number_or_text (prop (body req) "timeout") = true ->
  number_or_text (prop (body req) "interval") = true ->
  exists t i,
    to_number (prop (Server.prompt_and_wait_args req) "timeout") = JNum t
    /\ to_number (prop (Server.prompt_and_wait_args req) "interval") = JNum i
    /\ 1000 <= t <= 300000
    /\ 1000 <= i <= 10000
    /\ prop (Server.prompt_and_wait_args req) "maxAttempts" = JNum (t / i).
Proof.
  unfold validationResult, Server.prompt_and_wait_chains. intros H Htext Hitext.
  rewrite flat_map_app in H. apply app_eq_nil in H. destruct H as [_ H].
  cbn [flat_map] in H.
  apply app_eq_nil in H. destruct H as [Ht H].
  apply app_eq_nil in H. destruct H as [Hi _].
  apply optional_int_validated with (dflt := 300000) in Ht; [| exact Htext | lia].
  apply optional_int_validated with (dflt := 2000) in Hi; [| exact Hitext | lia].
  destruct Ht as (t & Et & Ht). destruct Hi as (i & Ei & Hi).
  exists t, i.
  rewrite server_args_maxAttempts, server_args_timeout, server_args_interval.
  unfold math_floor_div. rewrite Et, Ei.
  destruct (i =? 0) eqn:E0; [apply Z.eqb_eq in E0; lia |].
  repeat split; lia.
Qed.










Lemma error_bodies_by_server_witness :
  uniform_error_body
    (payload
       (reply (rejecting "boom")
          (Server.app ∅ "t0" "t1" (JNum 1) Server.approve
             {| Server.limited := false;
                Server.parsed := inr (request_with ∅ (JObj [])) |})))
  = true
  /\ exists m,
      payload
        (reply (rejecting "boom")
           (ProxyB.handler ∅ ProxyB.approve_bnkr (request_with ∅ (JObj []))))
      = JObj [("error", JStr m)].
Proof.
  pose proof (error_bodies_by_server ∅ "t0" "t1" (JNum 1) Server.approve
                {| Server.limited := false;
                   Server.parsed := inr (request_with ∅ (JObj [])) |}
                (fun v => inr v) ProxyA.approve ProxyB.approve_bnkr
                (request_with ∅ (JObj [])) (rejecting "boom"))
    as (Hs & _ & Hb & _).
  split.
  - apply Hs; [discriminate | vm_compute; reflexivity].
  - apply Hb. vm_compute. reflexivity.
Defined.

(** * Further properties of the servers *)

(** ** Substring tests *)

Lemma prefix_app (n h : string) :
  String.prefix n h = true <-> exists post, h = n +:+ post.
Proof.
  revert h. induction n as [| c n IH]; intros h.
  - split; [intros _; exists h; reflexivity | intros _; destruct h; reflexivity].
  - destruct h as [| c' h]; cbn.
    + split; [discriminate | intros [post H]; discriminate H].
    + destruct (Ascii.ascii_dec c c') as [-> | Hne].
      * rewrite IH. split; intros [post H]; exists post.
        -- rewrite H. reflexivity.
        -- injection H as H. exact H.
      * split; [discriminate | intros [post H]; injection H as H1 H2; congruence].
Qed.

Lemma includes_prefix (n h : string) :
  String.prefix n h = true -> includes n h = true.
Proof.
  intros H. destruct h as [| c h].
  - destruct n; [reflexivity | discriminate H].
  - change (String.prefix n (String c h) || includes n h = true).
    rewrite H. reflexivity.
Qed.

Lemma includes_contains (n h : string) :
  includes n h = true <-> contains n h.
Proof.
  split.
  - induction h as [| c h IH]; intros H.
    + change (String.prefix n "" || false = true) in H.
      rewrite orb_false_r in H. apply prefix_app in H. destruct H as [post H].
      exists "", post. exact H.
    + change (String.prefix n (String c h) || includes n h = true) in H.
      apply orb_true_iff in H. destruct H as [H | H].
      * apply prefix_app in H. destruct H as [post H]. exists "", post. exact H.
      * destruct (IH H) as (pre & post & ->).
        exists (String c pre), post. reflexivity.
  - intros (pre & post & ->). induction pre as [| c pre IH].
    + apply includes_prefix, prefix_app. exists post. reflexivity.
    + cbn. apply orb_true_iff. right. exact IH.
Qed.

Lemma not_includes_contains (n h : string) :
  includes n h = false <-> ~ contains n h.
Proof.
  rewrite <- includes_contains. destruct (includes n h); split; congruence.
Qed.

(** ** Classification on the submission and status routes *)


Lemma job_rejected now req d error :
  validationResult Server.job_chains req = [] ->
  d [] (job_call req) = inl error ->
  reply d (Server.get_api_job now req) = Server.job_failed now error.
Proof.
  intros Hvalid Hd. unfold job_call in Hd.
  unfold reply, Server.get_api_job. rewrite Hvalid.
  cbn. rewrite Hd. reflexivity.
Qed.

Ltac by_substrings :=
  repeat match goal with
         | H : includes _ _ = true |- _ => apply includes_contains in H
         | H : includes _ _ = false |- _ => apply not_includes_contains in H
         end;
  cbn; intuition (try congruence; try discriminate).



(** X2: when [bankrClient.getJobStatus] rejects, [GET /api/job/:jobId]
    answers 404 with the code JOB_NOT_FOUND exactly when the message holds
    "404" somewhere, and 500 with the message as details otherwise; the
    status was asked for once, for the identifier of the path. *)
Theorem job_rejection_is_classified_by_substring
        (now : string) (req : Request) (d : Downstream) (error : RawError) :
  validationResult Server.job_chains req = [] ->
  d [] (job_call req) = inl error ->
  (status (reply d (Server.get_api_job now req)) = 404
   <-> contains "404" (message error))
  /\ (status (reply d (Server.get_api_job now req)) = 500
      <-> ~ contains "404" (message error))
  /\ (status (reply d (Server.get_api_job now req)) = 404 ->
      error_code (reply d (Server.get_api_job now req)) = JStr "JOB_NOT_FOUND")
  /\ (status (reply d (Server.get_api_job now req)) = 500 ->
      error_details (reply d (Server.get_api_job now req))
      = JStr (message error))
  /\ calls d (Server.get_api_job now req) = [job_call req].
Proof.
  intros Hvalid Hd.
  rewrite (job_rejected now req d error Hvalid Hd).
  split; [| split; [| split; [| split]]].
  5: { unfold calls, Server.get_api_job. rewrite Hvalid. cbn.
       unfold job_call in Hd. rewrite Hd. reflexivity. }
  all: unfold Server.job_failed;
    destruct (includes "404" (message error)) eqn:E404;
    by_substrings.
Qed.

Lemma job_rejection_is_classified_by_substring_witness :
  status (reply (rejecting "job job_4041 crashed")
            (Server.get_api_job "t1" (job_request "job_4041")))
  = 404
  /\ calls (rejecting "job job_4041 crashed")
       (Server.get_api_job "t1" (job_request "job_4041"))
     = [bankrClient.getJobStatus (JStr "job_4041")].
Proof.
  pose proof (job_rejection_is_classified_by_substring "t1"
                (job_request "job_4041") (rejecting "job job_4041 crashed")
                {| message := "job job_4041 crashed" |}) as H.
  destruct H as (H404 & _ & _ & _ & Hcalls).
  - vm_compute. reflexivity.
  - reflexivity.
  - split; [| exact Hcalls].
    apply H404. exists "job job_", "1 crashed". reflexivity.
Defined.

(** ** How often the client is called *)

Lemma at_most_run {A : Type} (n : nat) (p : Prog A) :
  at_most n p ->
  forall d made, (length (fst (run d made p)) <= length made + n)%nat.
Proof.
  revert n. induction p as [a | c k IH]; intros n H d made; cbn.
  - lia.
  - destruct n as [| n]; [contradiction |].
    specialize (IH (d made c) n (H (d made c)) d (made ++ [c])%list).
    rewrite length_app in IH. cbn in IH. lia.
Qed.

Lemma at_most_calls {A : Type} (n : nat) (p : Prog A) (d : Downstream) :
  at_most n p -> (length (calls d p) <= n)%nat.
Proof. intros H. apply (at_most_run n p H d []). Qed.

Ltac step_budget :=
  autounfold with handlers; cbn;
  repeat (match goal with
          | |- True => exact I
          | |- forall _ : Result jsval, _ => intros [? | ?]
          | |- context [if ?b then _ else _] =>
              match type of b with bool => destruct b end
          | |- context [match ?x with inl _ => _ | inr _ => _ end] =>
              destruct x
          end; cbn).

Lemma server_app_at_most_once env started now uptime r a :
  at_most 1 (Server.app env started now uptime r a).
Proof.
  unfold Server.app.
  destruct (Server.limited a); [exact I |].
  destruct (Server.parsed a) as [error | req]; [exact I |].
  destruct r; cbn [Server.handler]; autounfold with handlers;
    unfold Server.handleValidationErrors;
    try destruct (validationResult _ _); step_budget.
Qed.

Lemma proxy_a_within_budget env BigInt r req :
  at_most (proxy_a_budget r) (ProxyA.handler env BigInt r req).
Proof. destruct r; cbn [ProxyA.handler proxy_a_budget]; step_budget. Qed.

Lemma proxy_b_within_budget env r req :
  at_most (proxy_b_budget r) (ProxyB.handler env r req).
Proof. destruct r; cbn [ProxyB.handler proxy_b_budget]; step_budget. Qed.

(** X3: no request makes server.js call the client more than once,
    whatever the route, the request and the client's answers: nothing is
    retried or resubmitted.  part_000 calls it at most once for a prompt
    and twice for an approval, part_001 at most three times for an
    approval and once for a prompt. *)
Theorem client_calls_are_bounded
        env started now uptime (r : Server.Route) (a : Server.Arrival)
        (BigInt : jsval -> Result jsval)
        (ra : ProxyA.Route) (rb : ProxyB.Route) (req : Request)
        (d : Downstream) :
  (length (calls d (Server.app env started now uptime r a)) <= 1)%nat
  /\ (length (calls d (ProxyA.handler env BigInt ra req))
      <= proxy_a_budget ra)%nat
  /\ (length (calls d (ProxyB.handler env rb req)) <= proxy_b_budget rb)%nat.
Proof.
  split; [| split].
  - apply at_most_calls, server_app_at_most_once.
  - apply at_most_calls, proxy_a_within_budget.
  - apply at_most_calls, proxy_b_within_budget.
Qed.

(** ** What the answers of server.js hold *)



Ltac settle_query :=
  repeat split; intros;
  repeat match goal with
         | H : exists _, _ |- _ => destruct H
         | H : _ /\ _ |- _ => destruct H
         | H : inl _ = inl _ |- _ => injection H as <-
         | H : inr _ = inr _ |- _ => injection H as <-
         end;
  try congruence; try discriminate;
  try (eexists; split; [reflexivity | eassumption]);
  auto.

(** X5: the health probe asks the client for the facilitator's allowance,
    once.  It answers 200 exactly when that query resolves with a value
    other than [undefined] and [null], showing the value as a string, and
    503 with the error's message and [bankrConnection: "disconnected"]
    otherwise; it never answers anything else. *)
Theorem health_probe_reports_the_allowance_query
        (now : string) (uptime : jsval) (d : Downstream) :
  has_bigint uptime = false ->
  calls d (Server.get_api_health now uptime) = [allowance_call]
  /\ (status (reply d (Server.get_api_health now uptime)) = 200
      <-> exists v, d [] allowance_call = inr v /\ nullish v = false)
  /\ (status (reply d (Server.get_api_health now uptime)) = 200
      \/ status (reply d (Server.get_api_health now uptime)) = 503)
  /\ (forall v,
         d [] allowance_call = inr v -> nullish v = false ->
         prop (payload (reply d (Server.get_api_health now uptime))) "allowance"
         = JStr (to_string v)
         /\ prop (payload (reply d (Server.get_api_health now uptime))) "status"
            = JStr "healthy")
  /\ (forall e,
         d [] allowance_call = inl e ->
         prop (payload (reply d (Server.get_api_health now uptime))) "error"
         = JStr (message e)
         /\ prop (payload (reply d (Server.get_api_health now uptime)))
                 "bankrConnection"
            = JStr "disconnected").
Proof.
  intros Huptime.
  unfold reply, calls, allowance_call. autounfold with handlers. cbn.
  change (JStr Server.facilitatorAddress) with (JStr well_known_facilitator).
  destruct (d [] (bankrClient.checkAllowance (JStr well_known_facilitator)))
    as [e | v]; cbn; [| destruct (nullish v) eqn:En; cbn;
                        [| rewrite Huptime; cbn]];
    settle_query.
Qed.

Lemma health_probe_reports_the_allowance_query_witness :
  status (reply (resolving (JBigInt 0)) (Server.get_api_health "t1" (JNum 12)))
  = 200
  /\ prop (payload (reply (resolving (JBigInt 0))
                      (Server.get_api_health "t1" (JNum 12))))
          "allowance"
     = JStr "0".
Proof.
  pose proof (health_probe_reports_the_allowance_query "t1" (JNum 12)
                (resolving (JBigInt 0))) as H.
  destruct H as (_ & H200 & _ & Hshown & _); [reflexivity |].
  split.
  - apply H200. exists (JBigInt 0). split; reflexivity.
  - apply (Hshown (JBigInt 0)); reflexivity.
Defined.

(** X6: [GET /api/allowance] asks the client for the facilitator's
    allowance, once.  It answers 200 exactly when the query resolves with
    a value other than [undefined] and [null], with the value shown as a
    string beside the facilitator address, and 500 INTERNAL_ERROR with the
    error's message as details otherwise. *)
Theorem allowance_route_reports_the_allowance_query
        (now : string) (d : Downstream) :
  calls d (Server.get_api_allowance now) = [allowance_call]
  /\ (status (reply d (Server.get_api_allowance now)) = 200
      <-> exists v, d [] allowance_call = inr v /\ nullish v = false)
  /\ (status (reply d (Server.get_api_allowance now)) = 200
      \/ status (reply d (Server.get_api_allowance now)) = 500
         /\ error_code (reply d (Server.get_api_allowance now))
            = JStr "INTERNAL_ERROR")
  /\ (forall v,
         d [] allowance_call = inr v -> nullish v = false ->
         prop (payload (reply d (Server.get_api_allowance now))) "allowance"
         = JStr (to_string v)
         /\ prop (payload (reply d (Server.get_api_allowance now)))
                 "facilitatorAddress"
            = JStr well_known_facilitator)
  /\ (forall e,
         d [] allowance_call = inl e ->
         error_details (reply d (Server.get_api_allowance now))
         = JStr (message e)).
Proof.
  unfold reply, calls, allowance_call. autounfold with handlers. cbn.
  change (JStr Server.facilitatorAddress) with (JStr well_known_facilitator).
  destruct (d [] (bankrClient.checkAllowance (JStr well_known_facilitator)))
    as [e | v]; cbn; [| destruct (nullish v) eqn:En; cbn];
    settle_query.
Qed.

Lemma approve_amount_string req s :
  prop (body req) "amount" = JStr s ->
  Server.approve_amount req = forwarded_amount s
  /\ validationResult Server.approve_chains req = [].
Proof.
  intros Hs. split.
  - unfold Server.approve_amount, forwarded_amount, or_else, truthy.
    rewrite Hs. destruct (String.eqb s ""); reflexivity.
  - unfold validationResult, Server.approve_chains.
    cbn [flat_map app]. unfold run_chain.
    cbn [location field optional checks source_of String.eqb Ascii.eqb
         Bool.eqb andb].
    rewrite Hs. reflexivity.
Qed.

(** X7: [POST /api/approve] checks only that [amount] is a string.  A
    non-empty string, numeric or not, is forwarded to the client as it is;
    the empty string counts as no amount and the largest uint256 is
    approved; an amount of any other type is refused with 400 before the
    client is called.  A resolved approval is answered 200 with the
    transaction reference and the amount that was forwarded. *)
Theorem approve_forwards_any_string_amount
        (now : string) (req : Request) (d : Downstream) :
  (forall s,
      prop (body req) "amount" = JStr s ->
      calls d (Server.post_api_approve now req)
      = [bankrClient.approve (JStr well_known_facilitator) (forwarded_amount s)]
      /\ forall tx,
          d [] (bankrClient.approve (JStr well_known_facilitator)
                                    (forwarded_amount s)) = inr tx ->
          has_bigint tx = false ->
          status (reply d (Server.post_api_approve now req)) = 200
          /\ prop (payload (reply d (Server.post_api_approve now req)))
                  "transactionHash" = tx
          /\ prop (payload (reply d (Server.post_api_approve now req)))
                  "amount" = forwarded_amount s)
  /\ (prop (body req) "amount" <> JUndefined ->
      is_string (prop (body req) "amount") = false ->
      status (reply d (Server.post_api_approve now req)) = 400
      /\ error_code (reply d (Server.post_api_approve now req))
         = JStr "VALIDATION_ERROR"
      /\ calls d (Server.post_api_approve now req) = []).
Proof.
  split.
  - intros s Hs.
    destruct (approve_amount_string req s Hs) as [Hamount Hvalid].
    unfold reply, calls, Server.post_api_approve.
    rewrite Hvalid, Hamount.
    change (JStr Server.facilitatorAddress) with (JStr well_known_facilitator).
    assert (Ha : has_bigint (forwarded_amount s) = false) by reflexivity.
    set (amount := forwarded_amount s) in *.
    autounfold with handlers. cbn [Server.handleValidationErrors bind run app].
    destruct (d [] _) as [e | tx] eqn:Ed; cbn [bind].
    + split; [reflexivity | intros tx H; discriminate H].
    + cbn [has_bigint existsb snd orb]. rewrite Ha. cbn [orb].
      rewrite orb_false_r.
      destruct (has_bigint tx) eqn:Etx; cbn;
        (split; [reflexivity |]);
        intros tx' H Hser; injection H as <-;
        [congruence | repeat split; reflexivity].
  - intros Hdef Hstr.
    unfold reply, calls, Server.post_api_approve, validationResult,
      Server.approve_chains.
    cbn [flat_map app]. unfold run_chain.
    cbn [location field optional checks source_of String.eqb Ascii.eqb
         Bool.eqb andb flat_map validator isString rejected].
    destruct (prop (body req) "amount"); try congruence; try discriminate Hstr;
      repeat split; reflexivity.
Qed.

Lemma approve_forwards_any_string_amount_witness :
  calls (resolving (JStr "0xtx"))
    (Server.post_api_approve "t1"
       (request_with ∅ (JObj [("amount", JStr "ten tokens")])))
  = [bankrClient.approve (JStr well_known_facilitator) (JStr "ten tokens")]
  /\ status
       (reply (resolving (JStr "0xtx"))
          (Server.post_api_approve "t1"
             (request_with ∅ (JObj [("amount", JNum 10)]))))
     = 400.
Proof.
  split.
  - pose proof (approve_forwards_any_string_amount "t1"
                  (request_with ∅ (JObj [("amount", JStr "ten tokens")]))
                  (resolving (JStr "0xtx"))) as [Hstring _].
    apply (Hstring "ten tokens"). reflexivity.
  - pose proof (approve_forwards_any_string_amount "t1"
                  (request_with ∅ (JObj [("amount", JNum 10)]))
                  (resolving (JStr "0xtx"))) as [_ Hother].
    apply Hother; [discriminate | reflexivity].
Defined.

(** X8: a failure of a middleware of server.js never reaches the client
    and is answered 500 INTERNAL_ERROR; unless NODE_ENV is "development"
    the answer does not depend on the error, so its message is not
    disclosed, and in development the details are the message. *)
Theorem middleware_failure_is_not_disclosed
        env started now uptime (r : Server.Route) (e e' : RawError)
        (d : Downstream) :
  (calls d (Server.app env started now uptime r
              {| Server.limited := false; Server.parsed := inl e |}) = []
   /\ status (reply d (Server.app env started now uptime r
                         {| Server.limited := false; Server.parsed := inl e |}))
      = 500
   /\ error_code (reply d (Server.app env started now uptime r
                             {| Server.limited := false;
                                Server.parsed := inl e |}))
      = JStr "INTERNAL_ERROR")
  /\ (env !! "NODE_ENV" <> Some "development" ->
      reply d (Server.app env started now uptime r
                 {| Server.limited := false; Server.parsed := inl e |})
      = reply d (Server.app env started now uptime r
                   {| Server.limited := false; Server.parsed := inl e' |}))
  /\ (env !! "NODE_ENV" = Some "development" ->
      error_details (reply d (Server.app env started now uptime r
                                {| Server.limited := false;
                                   Server.parsed := inl e |}))
      = JStr (message e)).
Proof.
  unfold Server.app, reply, calls. cbn. unfold Server.unhandled.
  split; [repeat split; reflexivity |]. split.
  - intros Hne. rewrite !bool_decide_eq_false_2 by exact Hne. reflexivity.
  - intros Hdev. rewrite bool_decide_eq_true_2 by exact Hdev. reflexivity.
Qed.

Lemma middleware_failure_is_not_disclosed_witness :
  reply (resolving JNull)
    (Server.app (<["NODE_ENV" := "production"]> ∅) "t0" "t1" (JNum 1)
       Server.prompt
       {| Server.limited := false;
          Server.parsed := inl {| message := "Unexpected token } in JSON" |} |})
  = reply (resolving JNull)
      (Server.app (<["NODE_ENV" := "production"]> ∅) "t0" "t1" (JNum 1)
         Server.prompt
         {| Server.limited := false;
            Server.parsed := inl {| message := "request entity too large" |} |}).
Proof.
  apply (middleware_failure_is_not_disclosed
           (<["NODE_ENV" := "production"]> ∅) "t0" "t1" (JNum 1) Server.prompt
           {| message := "Unexpected token } in JSON" |}
           {| message := "request entity too large" |} (resolving JNull)).
  vm_compute. discriminate.
Defined.

(** ** The proxies *)

(** X9: the token guard of the proxies rejects a request exactly when
    BANKR_PROXY_TOKEN is set to a non-empty secret and the
    [x-proxy-token] header is absent or differs from it.  With the
    variable unset, or set to the empty string, every request passes;
    with it set, the request carrying the secret passes. *)
Theorem token_guard_rejects_exactly_mismatches
        (env : gmap string string) (req : Request) :
  (Proxy.token_rejected env req = true
   <-> exists secret,
        env !! "BANKR_PROXY_TOKEN" = Some secret
        /\ secret <> ""
        /\ headers req !! "x-proxy-token" <> Some secret)
  /\ (env !! "BANKR_PROXY_TOKEN" = None \/ env !! "BANKR_PROXY_TOKEN" = Some "" ->
      Proxy.token_rejected env req = false)
  /\ (headers req !! "x-proxy-token" = env !! "BANKR_PROXY_TOKEN" ->
      Proxy.token_rejected env req = false).
Proof.
  unfold Proxy.token_rejected, Proxy.BANKR_PROXY_TOKEN.
  split; [| split].
  - destruct (env !! "BANKR_PROXY_TOKEN") as [secret |] eqn:Eenv; cbn.
    + split.
      * intros H. apply andb_true_iff in H. destruct H as [Hne Hhdr].
        exists secret. split; [reflexivity |]. split.
        -- apply negb_true_iff, String.eqb_neq in Hne. exact Hne.
        -- apply negb_true_iff, bool_decide_eq_false in Hhdr. exact Hhdr.
      * intros (secret' & Hs & Hne & Hhdr). injection Hs as <-.
        apply andb_true_iff. split.
        -- apply negb_true_iff, String.eqb_neq, Hne.
        -- apply negb_true_iff, bool_decide_eq_false, Hhdr.
    + split; [discriminate | intros (secret & H & _); discriminate H].
  - intros [-> | ->]; reflexivity.
  - intros ->. rewrite bool_decide_eq_true_2 by reflexivity.
    apply andb_false_r.
Qed.

Lemma token_guard_rejects_exactly_mismatches_witness :
  Proxy.token_rejected (<["BANKR_PROXY_TOKEN" := ""]> ∅)
    (request_with ∅ (JObj [])) = false
  /\ Proxy.token_rejected (<["BANKR_PROXY_TOKEN" := "s3cret"]> ∅)
       (request_with (<["x-proxy-token" := "s3cret"]> ∅) (JObj [])) = false.
Proof.
  split.
  - pose proof (token_guard_rejects_exactly_mismatches
                  (<["BANKR_PROXY_TOKEN" := ""]> ∅)
                  (request_with ∅ (JObj []))) as (_ & Hunset & _).
    apply Hunset. right. vm_compute. reflexivity.
  - pose proof (token_guard_rejects_exactly_mismatches
                  (<["BANKR_PROXY_TOKEN" := "s3cret"]> ∅)
                  (request_with (<["x-proxy-token" := "s3cret"]> ∅) (JObj [])))
      as (_ & _ & Hmatch).
    apply Hmatch. vm_compute. reflexivity.
Defined.

Lemma job_body_normalised v : normalised_job (job_body v).
Proof.
  unfold normalised_job, job_body. do 5 eexists.
  split; [reflexivity |]. split; [| split].
  - unfold coalesce. destruct (prop v "response"); discriminate.
  - apply coalesce_not_nullish. reflexivity.
  - apply coalesce_not_nullish. reflexivity.
Qed.

Lemma job_view_outcome v :
  exists x,
    Proxy.job_view v = Ret x
    /\ forall resp, x = inr resp ->
                    nullish v = false /\ has_bigint (job_body v) = false
                    /\ resp = status_json 200 (job_body v).
Proof.
  unfold Proxy.job_view. autounfold with handlers. unfold job_body.
  destruct (nullish v); cbn.
  - eexists. split; [reflexivity |]. intros resp H. discriminate H.
  - match goal with
    | |- context [if ?b then _ else _] => destruct b eqn:E
    end; eexists; (split; [reflexivity |]); intros resp H;
      [discriminate H | injection H as <-; auto].
Qed.

(** X10: a 200 answer of the prompt route of either proxy is built from
    the value the client resolved with: its [jobId] and [status], its
    [response] or [null], its [transactions] and [richData] or empty
    lists, and nothing else; so [response] is never [undefined] and the
    two lists are never [undefined] or [null]. *)
Theorem proxy_prompt_answer_is_normalised
        (env : gmap string string) (req : Request) (d : Downstream) :
  (status (reply d (ProxyA.post_api_bankr_prompt env req)) = 200 ->
   exists v,
     d [] (bankrClient.promptAndWait (ProxyA.prompt_args req)) = inr v
     /\ payload (reply d (ProxyA.post_api_bankr_prompt env req)) = job_body v
     /\ normalised_job (job_body v))
  /\ (status (reply d (ProxyB.post_api_bankr_promptAndWait env req)) = 200 ->
      exists v,
        d [] (bankrClient.promptAndWait (ProxyB.prompt_args req)) = inr v
        /\ payload (reply d (ProxyB.post_api_bankr_promptAndWait env req))
           = job_body v
        /\ normalised_job (job_body v)).
Proof.
  split;
    unfold reply, ProxyA.post_api_bankr_prompt,
      ProxyB.post_api_bankr_promptAndWait;
    destruct (Proxy.token_rejected env req); cbn; try discriminate;
    destruct (negb _ || negb _); cbn; try discriminate;
    destruct (d [] _) as [e | v]; cbn; try discriminate;
    destruct (job_view_outcome v) as (x & -> & Hx); cbn;
    destruct x as [e | resp]; cbn; try discriminate;
    destruct (Hx resp eq_refl) as (_ & _ & ->); cbn;
    intros _; exists v; (split; [reflexivity |]);
    (split; [reflexivity | apply job_body_normalised]).
Qed.

Lemma proxy_prompt_answer_is_normalised_witness :
  exists v,
    payload
      (reply (resolving (JObj [("jobId", JStr "job_1");
                               ("status", JStr "completed");
                               ("processingTime", JNum 1200)]))
         (ProxyA.post_api_bankr_prompt ∅
            (request_with ∅ (JObj [("prompt", JStr "hi")]))))
    = job_body v
    /\ normalised_job (job_body v).
Proof.
  destruct (proxy_prompt_answer_is_normalised ∅
              (request_with ∅ (JObj [("prompt", JStr "hi")]))
              (resolving (JObj [("jobId", JStr "job_1");
                                ("status", JStr "completed");
                                ("processingTime", JNum 1200)])))
    as [Ha _].
  destruct Ha as (v & _ & Hp & Hn); [vm_compute; reflexivity |].
  exists v. split; [exact Hp | exact Hn].
Defined.

(** X11: [POST /api/bankr/approve] of part_000, past the token guard.
    Without a truthy spender it answers 400 and calls nothing.  A truthy
    amount is converted with [BigInt] before anything is submitted: when
    the conversion throws, the answer is 500 with its message and no
    approval was made; otherwise the converted amount is approved.  A
    falsy amount (absent, [null], 0, the empty string, [false]) is
    approved as [undefined]. *)
Theorem proxy_approve_converts_before_submitting
        (env : gmap string string) (BigInt : jsval -> Result jsval)
        (req : Request) (d : Downstream) :
  Proxy.token_rejected env req = false ->
  (truthy (body_spender req) = false ->
   status (reply d (ProxyA.post_api_bankr_approve env BigInt req)) = 400
   /\ calls d (ProxyA.post_api_bankr_approve env BigInt req) = [])
  /\ (truthy (body_spender req) = true ->
      (truthy (body_amount req) = true ->
       (forall e,
           BigInt (body_amount req) = inl e ->
           reply d (ProxyA.post_api_bankr_approve env BigInt req)
           = Proxy.failed e
           /\ calls d (ProxyA.post_api_bankr_approve env BigInt req) = [])
       /\ (forall n,
              BigInt (body_amount req) = inr n ->
              exists rest,
                calls d (ProxyA.post_api_bankr_approve env BigInt req)
                = bankrClient.approve (body_spender req) n :: rest))
      /\ (truthy (body_amount req) = false ->
          exists rest,
            calls d (ProxyA.post_api_bankr_approve env BigInt req)
            = bankrClient.approve (body_spender req) JUndefined :: rest)).
Proof.
  intros Htok.
  unfold reply, calls, ProxyA.post_api_bankr_approve, body_spender, body_amount.
  rewrite Htok.
  split; [| intros Hspender; split; [intros Hamount; split |]].
  - intros ->. split; reflexivity.
  - intros e He. rewrite Hspender, Hamount. cbn. rewrite He. split; reflexivity.
  - intros n Hn. rewrite Hspender, Hamount. cbn. rewrite Hn. cbn.
    match goal with
    | |- context [run d ?made ?p] =>
        destruct (calls_Call d made p) as [rest ->]
    end.
    exists rest. reflexivity.
  - intros Hamount. rewrite Hspender, Hamount. cbn.
    match goal with
    | |- context [run d ?made ?p] =>
        destruct (calls_Call d made p) as [rest ->]
    end.
    exists rest. reflexivity.
Qed.

Lemma proxy_approve_converts_before_submitting_witness :
  reply (resolving (JStr "0xtx"))
    (ProxyA.post_api_bankr_approve ∅
       (fun v => inl {| message := "Cannot convert 1.5 to a BigInt" |})
       (request_with ∅ (JObj [("spender", JStr "0xabc"); ("amount", JStr "1.5")])))
  = Proxy.failed {| message := "Cannot convert 1.5 to a BigInt" |}
  /\ calls (resolving (JStr "0xtx"))
       (ProxyA.post_api_bankr_approve ∅
          (fun v => inl {| message := "Cannot convert 1.5 to a BigInt" |})
          (request_with ∅
             (JObj [("spender", JStr "0xabc"); ("amount", JStr "1.5")])))
     = [].
Proof.
  pose proof (proxy_approve_converts_before_submitting ∅
                (fun v => inl {| message := "Cannot convert 1.5 to a BigInt" |})
                (request_with ∅
                   (JObj [("spender", JStr "0xabc"); ("amount", JStr "1.5")]))
                (resolving (JStr "0xtx"))) as H.
  destruct H as (_ & H); [reflexivity |].
  destruct H as ((Hthrows & _) & _); [reflexivity | reflexivity |].
  apply Hthrows. reflexivity.
Defined.

(** X12: [POST /api/bankr/approve-bnkr] of part_001, past the token guard,
    approves the largest uint256 for the facilitator, then queries the
    allowance, then reads the wallet address, and stops at the first of
    the three that fails: the calls made are always an initial part of
    that sequence.  When the approval is rejected the allowance is not
    queried; a 200 answer means all three were made. *)
Theorem approve_bnkr_stops_at_the_first_failure
        (env : gmap string string) (req : Request) (d : Downstream) :
  Proxy.token_rejected env req = false ->
  (exists n,
      (1 <= n <= 3)%nat
      /\ calls d (ProxyB.post_api_bankr_approve_bnkr env req)
         = firstn n approve_bnkr_calls)
  /\ (forall e,
         d [] (bankrClient.approve (JStr well_known_facilitator)
                                   ProxyB.maxUint256) = inl e ->
         calls d (ProxyB.post_api_bankr_approve_bnkr env req)
         = firstn 1 approve_bnkr_calls
         /\ reply d (ProxyB.post_api_bankr_approve_bnkr env req)
            = Proxy.failed e)
  /\ (status (reply d (ProxyB.post_api_bankr_approve_bnkr env req)) = 200 ->
      calls d (ProxyB.post_api_bankr_approve_bnkr env req)
      = approve_bnkr_calls).
Proof.
  intros Htok.
  unfold reply, calls, ProxyB.post_api_bankr_approve_bnkr, approve_bnkr_calls.
  rewrite Htok. autounfold with handlers. cbn.
  change (JStr ProxyB.spender) with (JStr well_known_facilitator).
  destruct (d [] _) as [e | txHash]; cbn.
  { split; [exists 1%nat; split; [lia | reflexivity] |].
    split; [| discriminate].
    intros e' H. injection H as <-. split; reflexivity. }
  destruct (d [_] _) as [e | allowance]; cbn.
  { split; [exists 2%nat; split; [lia | reflexivity] |].
    split; [intros e' H; discriminate H | discriminate]. }
  destruct (nullish allowance); cbn.
  { split; [exists 2%nat; split; [lia | reflexivity] |].
    split; [intros e' H; discriminate H | discriminate]. }
  destruct (d [_; _] _) as [e | wallet]; cbn.
  { split; [exists 3%nat; split; [lia | reflexivity] |].
    split; [intros e' H; discriminate H | discriminate]. }
  match goal with
  | |- context [if ?b then _ else _] => destruct b
  end; cbn;
    (split; [exists 3%nat; split; [lia | reflexivity] |]);
    (split; [intros e' H; discriminate H |]);
    intros; reflexivity.
Qed.

Lemma approve_bnkr_stops_at_the_first_failure_witness :
  calls (rejecting "insufficient funds for gas")
    (ProxyB.post_api_bankr_approve_bnkr ∅ (request_with ∅ JUndefined))
  = [bankrClient.approve (JStr well_known_facilitator) ProxyB.maxUint256].
Proof.
  pose proof (approve_bnkr_stops_at_the_first_failure ∅
                (request_with ∅ JUndefined)
                (rejecting "insufficient funds for gas")) as H.
  destruct H as (_ & Hfirst & _); [reflexivity |].
  apply (Hfirst {| message := "insufficient funds for gas" |}). reflexivity.
Defined.

(** ** Start-up *)

(** X13: loading server.js arrives at [app.listen] exactly when
    BANKR_API_KEY, PRIVATE_KEY and WALLET_ADDRESS are all set and non-empty
    and the client constructor, given those three and the network "base",
    does not throw; the port it hands to [app.listen] is PORT, or 3000 when
    PORT is unset or empty.  In every other case the process exits, always
    with status 1.  Whether the listener then comes up is Node's matter,
    which checks the port and binds it. *)
Theorem server_reaches_listen_exactly_when_configured
        (env : gmap string string) (new_BankrClient : jsval -> Result unit)
        (port : jsval) :
  (Server.startup env new_BankrClient = Server.Listen port
   <-> set_and_nonempty (env !! "BANKR_API_KEY") = true
       /\ set_and_nonempty (env !! "PRIVATE_KEY") = true
       /\ set_and_nonempty (env !! "WALLET_ADDRESS") = true
       /\ new_BankrClient (server_client_options env) = inr tt
       /\ port = (if set_and_nonempty (env !! "PORT")
                  then Server.env_val env "PORT" else JNum 3000))
  /\ (forall code,
         Server.startup env new_BankrClient = Server.Exited code -> code = 1).
Proof.
  unfold Server.startup, Server.missingEnvVars, Server.requiredEnvVars,
    server_client_options.
  cbn [List.filter].
  assert (Hport : or_else (Server.env_val env "PORT") (JNum 3000)
                  = (if set_and_nonempty (env !! "PORT")
                     then Server.env_val env "PORT" else JNum 3000)).
  { unfold or_else, Server.env_val, set_and_nonempty, truthy.
    destruct (env !! "PORT") as [p |]; [| reflexivity].
    destruct (String.eqb p ""); reflexivity. }
  rewrite Hport.
  destruct (set_and_nonempty (env !! "BANKR_API_KEY"));
    destruct (set_and_nonempty (env !! "PRIVATE_KEY"));
    destruct (set_and_nonempty (env !! "WALLET_ADDRESS"));
    cbn;
    try (split; [split; [discriminate | intros (? & ? & ? & _); discriminate]
                | intros code H; injection H as <-; reflexivity]).
  destruct (new_BankrClient _) as [e | []]; split.
  - split; [discriminate | intros (_ & _ & _ & H & _); discriminate H].
  - intros code H. injection H as <-. reflexivity.
  - split.
    + intros H. injection H as <-. repeat split; reflexivity.
    + intros (_ & _ & _ & _ & ->). reflexivity.
  - intros code H. discriminate H.
Qed.

(** X14: loading a proxy arrives at [app.listen] exactly when
    BANKR_API_KEY and BANKR_PRIVATE_KEY are set and non-empty and the
    client constructor does not throw; an error thrown by the constructor
    is the error the module load ends with.  The port handed to
    [app.listen] is PORT, and 3000 only when PORT is unset: an empty PORT
    is passed on as it is, where server.js takes 3000.  The client is
    given a [baseUrl] exactly when BANKR_BASE_URL is set and non-empty.
    Whether the listener then comes up is Node's matter. *)
Theorem proxy_reaches_listen_exactly_when_configured
        (env : gmap string string) (new_BankrClient : jsval -> Result unit)
        (guard_message : string) (port : jsval) :
  (Proxy.startup env new_BankrClient guard_message = Proxy.Listen port
   <-> set_and_nonempty (env !! "BANKR_API_KEY") = true
       /\ set_and_nonempty (env !! "BANKR_PRIVATE_KEY") = true
       /\ new_BankrClient (Proxy.client_options env) = inr tt
       /\ port = match env !! "PORT" with
                 | Some p => JStr p
                 | None => JNum 3000
                 end)
  /\ (forall e,
         set_and_nonempty (env !! "BANKR_API_KEY") = true ->
         set_and_nonempty (env !! "BANKR_PRIVATE_KEY") = true ->
         new_BankrClient (Proxy.client_options env) = inl e ->
         Proxy.startup env new_BankrClient guard_message = Proxy.Threw e)
  /\ (prop (Proxy.client_options env) "baseUrl"
      = if set_and_nonempty (env !! "BANKR_BASE_URL")
        then Proxy.env_val env "BANKR_BASE_URL" else JUndefined)
  /\ ProxyA.startup env new_BankrClient
     = Proxy.startup env new_BankrClient
         "BANKR_API_KEY and BANKR_PRIVATE_KEY are required"
  /\ ProxyB.startup env new_BankrClient
     = Proxy.startup env new_BankrClient
         "Missing BANKR_API_KEY or BANKR_PRIVATE_KEY".
Proof.
  split; [| split; [| split; [| split; reflexivity]]].
  - unfold Proxy.startup, Proxy.PORT.
    destruct (set_and_nonempty (env !! "BANKR_API_KEY"));
      destruct (set_and_nonempty (env !! "BANKR_PRIVATE_KEY")); cbn;
      try (split; [discriminate | intros (? & ? & _); discriminate]).
    destruct (new_BankrClient _) as [e | []]; split.
    + discriminate.
    + intros (_ & _ & H & _). discriminate H.
    + intros H. injection H as <-. repeat split; reflexivity.
    + intros (_ & _ & _ & ->). reflexivity.
  - intros e Hkey Hpk He. unfold Proxy.startup.
    rewrite Hkey, Hpk, He. reflexivity.
  - unfold Proxy.client_options.
    destruct (set_and_nonempty (env !! "BANKR_BASE_URL")); reflexivity.
Qed.

(** ** Allowed origins *)

Lemma split_nonempty sep s : split sep s <> [].
Proof.
  destruct s as [| c rest]; cbn; [discriminate |].
  destruct (Ascii.eqb c sep); [discriminate |].
  destruct (split sep rest); discriminate.
Qed.

Lemma concat_cons sep piece pieces :
  pieces <> [] ->
  String.concat sep (piece :: pieces)
  = piece +:+ sep +:+ String.concat sep pieces.
Proof. destruct pieces; [congruence | reflexivity]. Qed.

Lemma concat_split sep s :
  String.concat (String sep EmptyString) (split sep s) = s.
Proof.
  induction s as [| c rest IH]; [reflexivity |].
  cbn [split]. destruct (Ascii.eqb c sep) eqn:Ec.
  - apply Ascii.eqb_eq in Ec. subst c.
    rewrite concat_cons by apply split_nonempty. rewrite IH. reflexivity.
  - pose proof (split_nonempty sep rest) as Hne.
    destruct (split sep rest) as [| piece pieces]; [congruence |].
    destruct pieces as [| piece' pieces].
    + cbn in *. rewrite IH. reflexivity.
    + rewrite concat_cons by discriminate.
      rewrite concat_cons in IH by discriminate.
      rewrite <- IH. reflexivity.
Qed.

Lemma split_pieces_hold_no_separator sep s :
  Forall (fun piece => includes (String sep EmptyString) piece = false)
         (split sep s).
Proof.
  induction s as [| c rest IH]; cbn [split].
  - repeat constructor.
  - destruct (Ascii.eqb c sep) eqn:Ec.
    + constructor; [reflexivity | exact IH].
    + destruct (split sep rest) as [| piece pieces].
      * repeat constructor. cbn.
        destruct (Ascii.ascii_dec sep c) as [-> | _]; [| reflexivity].
        rewrite Ascii.eqb_refl in Ec. discriminate Ec.
      * apply Forall_cons in IH. destruct IH as [Hpiece Hpieces].
        constructor; [| exact Hpieces].
        change (String.prefix (String sep EmptyString) (String c piece)
                || includes (String sep EmptyString) piece = false).
        rewrite Hpiece, orb_false_r. cbn.
        destruct (Ascii.ascii_dec sep c) as [-> | _]; [| reflexivity].
        rewrite Ascii.eqb_refl in Ec. discriminate Ec.
Qed.

(** X15: the origins the proxies allow.  With CORS_ORIGIN unset or empty
    every origin is allowed ([true]).  Otherwise the value is cut at its
    commas into at least one origin; no origin holds a comma, nothing is
    trimmed or dropped, and joining the origins with commas gives the
    value back.  server.js does not cut: its single origin is the whole
    value, or "*" when CORS_ORIGIN is unset or empty. *)
Theorem allowed_origins_are_the_comma_separated_pieces
        (env : gmap string string) :
  (set_and_nonempty (env !! "CORS_ORIGIN") = false ->
   Proxy.cors_origin env = JBool true
   /\ Server.cors_origin env = JStr "*")
  /\ (forall s,
         env !! "CORS_ORIGIN" = Some s -> s <> "" ->
         Server.cors_origin env = JStr s
         /\ exists origins,
             Proxy.cors_origin env = JArr (map JStr origins)
             /\ origins <> []
             /\ String.concat "," origins = s
             /\ Forall (fun origin => includes "," origin = false) origins).
Proof.
  unfold Proxy.cors_origin, Server.cors_origin, Server.env_val, or_else, truthy.
  split.
  - destruct (env !! "CORS_ORIGIN") as [s |]; cbn; [| split; reflexivity].
    intros H. apply negb_false_iff in H. rewrite H. split; reflexivity.
  - intros s -> Hne. apply String.eqb_neq in Hne. rewrite Hne. cbn.
    split; [reflexivity |].
    exists (split "," s).
    split; [reflexivity |]. split; [apply split_nonempty |].
    split; [apply concat_split | apply split_pieces_hold_no_separator].
Qed.

Lemma allowed_origins_are_the_comma_separated_pieces_witness :
  exists origins,
    Proxy.cors_origin (<["CORS_ORIGIN" := "https://a.example, https://b.example"]> ∅)
    = JArr (map JStr origins)
    /\ String.concat "," origins = "https://a.example, https://b.example".
Proof.
  pose proof (allowed_origins_are_the_comma_separated_pieces
                (<["CORS_ORIGIN" := "https://a.example, https://b.example"]> ∅))
    as [_ H].
  destruct (H "https://a.example, https://b.example")
    as (_ & origins & Ho & _ & Hjoin & _).
  - vm_compute. reflexivity.
  - discriminate.
  - exists origins. split; [exact Ho | exact Hjoin].
Defined.

(** ** Serialisable answers *)

Ltac step_serialisable :=
  autounfold with handlers; cbn;
  repeat (match goal with
          | |- forall _ : Result jsval, _ => intros [? | ?]
          | |- context [if ?b then _ else _] =>
              match type of b with bool => destruct b eqn:? end
          | |- context [match ?x with inl _ => _ | inr _ => _ end] =>
              destruct x
          end; cbn);
  unfold serialisable; cbn; intros; try discriminate; try assumption;
  try reflexivity.

Lemma server_app_serialisable env started now uptime r a :
  leaves serialisable (Server.app env started now uptime r a).
Proof.
  unfold Server.app.
  destruct (Server.limited a); [step_serialisable |].
  destruct (Server.parsed a) as [error | req]; [step_serialisable |].
  destruct r; cbn [Server.handler];
    try (apply handleValidationErrors_leaves; [intros e es -> |]);
    step_serialisable.
Qed.

Lemma proxy_a_serialisable env BigInt r req :
  leaves serialisable (ProxyA.handler env BigInt r req).
Proof. destruct r; cbn [ProxyA.handler]; step_serialisable. Qed.

Lemma proxy_b_serialisable env r req :
  leaves serialisable (ProxyB.handler env r req).
Proof. destruct r; cbn [ProxyB.handler]; step_serialisable. Qed.

(** X16: no server answers 200 with a body that cannot be serialised.
    When the value the client resolved with holds a bigint, [res.json]
    throws inside the [try] block and the [catch] branch answers instead;
    so the body of every 200 answer, on every route of the three servers,
    is free of bigints. *)
Theorem ok_answers_hold_no_bigint
        env started now uptime (r : Server.Route) (a : Server.Arrival)
        (BigInt : jsval -> Result jsval)
        (ra : ProxyA.Route) (rb : ProxyB.Route) (req : Request)
        (d : Downstream) :
  (status (reply d (Server.app env started now uptime r a)) = 200 ->
   has_bigint (payload (reply d (Server.app env started now uptime r a)))
   = false)
  /\ (status (reply d (ProxyA.handler env BigInt ra req)) = 200 ->
      has_bigint (payload (reply d (ProxyA.handler env BigInt ra req))) = false)
  /\ (status (reply d (ProxyB.handler env rb req)) = 200 ->
      has_bigint (payload (reply d (ProxyB.handler env rb req))) = false).
Proof.
  split; [| split].
  - apply (leaves_reply serialisable), server_app_serialisable.
  - apply (leaves_reply serialisable), proxy_a_serialisable.
  - apply (leaves_reply serialisable), proxy_b_serialisable.
Qed.

Lemma ok_answers_hold_no_bigint_witness :
  has_bigint
    (payload
       (reply (resolving (JBigInt 1000))
          (Server.app ∅ "t0" "t1" (JNum 1) Server.allowance
             {| Server.limited := false;
                Server.parsed := inr (request_with ∅ (JObj [])) |})))
  = false.
Proof.
  pose proof (ok_answers_hold_no_bigint ∅ "t0" "t1" (JNum 1) Server.allowance
                {| Server.limited := false;
                   Server.parsed := inr (request_with ∅ (JObj [])) |}
                (fun v => inr v) ProxyA.prompt ProxyB.promptAndWait
                (request_with ∅ (JObj [])) (resolving (JBigInt 1000)))
    as [Hserver _].
  apply Hserver. vm_compute. reflexivity.
Defined.

(** ** The derived attempts cap *)

(** X17: on [POST /api/prompt-and-wait] a request that passes validation
    with a timeout and an interval that are absent, numbers or strings
    reaches the client with maxAttempts = floor(timeout / interval), the
    largest number of whole intervals that fit in the timeout; it is 0
    exactly when the timeout is shorter than the interval, which
    validation allows (a timeout from 1000 to 1999 with the default
    interval, for one). *)
Theorem derived_cap_is_zero_for_short_timeouts (req : Request) :
  validationResult Server.prompt_and_wait_chains req = [] ->
  number_or_text (prop (body req) "timeout") = true ->
  number_or_text (prop (body req) "interval") = true ->
  exists t i,
    to_number (prop (Server.prompt_and_wait_args req) "timeout") = JNum t
    /\ to_number (prop (Server.prompt_and_wait_args req) "interval") = JNum i
    /\ prop (Server.prompt_and_wait_args req) "maxAttempts" = JNum (t / i)
    /\ t / i * i <= t < (t / i + 1) * i
    /\ (t / i = 0 <-> t < i).
Proof.
  intros H Ht Hi.
  destruct (server_cap_is_derived req H Ht Hi)
    as (t & i & Et & Ei & Rt & Ri & Hm).
  exists t, i.
  split; [exact Et |]. split; [exact Ei |]. split; [exact Hm |].
  pose proof (Z.div_mod t i ltac:(lia)) as Hdm.
  pose proof (Z.mod_pos_bound t i ltac:(lia)) as Hmod.
  split; [nia |].
  split; intros H0.
  - rewrite H0 in Hdm. lia.
  - apply Z.div_small. lia.
Qed.

Lemma derived_cap_is_zero_for_short_timeouts_witness :
  prop (Server.prompt_and_wait_args
          (request_with ∅ (JObj [("prompt", JStr "hi"); ("timeout", JNum 1500)])))
       "maxAttempts"
  = JNum 0.
Proof.
  destruct (derived_cap_is_zero_for_short_timeouts
              (request_with ∅
                 (JObj [("prompt", JStr "hi"); ("timeout", JNum 1500)])))
    as (t & i & Et & Ei & Hcap & _ & Hzero).
  - vm_compute. reflexivity.
  - reflexivity.
  - reflexivity.
  - rewrite Hcap. f_equal. apply Hzero.
    injection Et as <-. injection Ei as <-. lia.
Defined.

(** ** Addresses in the log *)

Lemma string_length_app (a b : string) :
  String.length (a +:+ b) = (String.length a + String.length b)%nat.
Proof.
  induction a as [| c a IH]; [reflexivity |].
  change (S (String.length (a +:+ b)) = S (String.length a + String.length b)).
  rewrite IH. reflexivity.
Qed.

Lemma string_split_at (n : nat) (s : string) :
  (n <= String.length s)%nat ->
  exists a b, s = a +:+ b /\ String.length a = n.
Proof.
  revert s. induction n as [| n IH]; intros s Hn.
  - exists "", s. split; reflexivity.
  - destruct s as [| c s]; cbn in Hn; [lia |].
    destruct (IH s ltac:(lia)) as (a & b & -> & Ha).
    exists (String c a), b. split; [reflexivity | cbn; lia].
Qed.

Lemma substring_all (b : string) : String.substring 0 (String.length b) b = b.
Proof.
  induction b as [| c b IH]; [reflexivity |].
  change (String c (String.substring 0 (String.length b) b) = String c b).
  rewrite IH. reflexivity.
Qed.

Lemma substring_head (a b : string) :
  String.substring 0 (String.length a) (a +:+ b) = a.
Proof.
  induction a as [| c a IH].
  - destruct b; reflexivity.
  - change (String c (String.substring 0 (String.length a) (a +:+ b))
            = String c a).
    rewrite IH. reflexivity.
Qed.

Lemma substring_tail (a b : string) :
  String.substring (String.length a) (String.length b) (a +:+ b) = b.
Proof. induction a as [| c a IH]; [apply substring_all | exact IH]. Qed.

Lemma slice_head (head rest : string) :
  (6 <= String.length (head +:+ rest))%nat ->
  String.length head = 6%nat ->
  slice (head +:+ rest) 0 (Some 6) = head.
Proof.
  intros Hlen Hhead. unfold slice, slice_index.
  replace (0 <? 0) with false by reflexivity.
  replace (6 <? 0) with false by reflexivity.
  rewrite !Z.min_l by lia.
  replace (Z.to_nat 0) with 0%nat by reflexivity.
  replace (Z.to_nat (6 - 0)) with (String.length head) by lia.
  apply substring_head.
Qed.

Lemma slice_tail (front tail : string) :
  String.length tail = 4%nat ->
  slice (front +:+ tail) (-4) None = tail.
Proof.
  intros Htail. unfold slice, slice_index.
  replace (-4 <? 0) with true by reflexivity.
  rewrite string_length_app, Htail.
  rewrite Z.max_l by lia.
  replace (Z.to_nat (Z.of_nat (String.length front + 4) + -4))
    with (String.length front) by lia.
  replace (Z.to_nat (Z.of_nat (String.length front + 4)
                     - (Z.of_nat (String.length front + 4) + -4)))
    with (String.length tail) by lia.
  apply substring_tail.
Qed.

Lemma slice_short_head (s : string) :
  (String.length s <= 6)%nat -> slice s 0 (Some 6) = s.
Proof.
  intros Hlen. unfold slice, slice_index.
  replace (0 <? 0) with false by reflexivity.
  replace (6 <? 0) with false by reflexivity.
  rewrite Z.min_l by lia. rewrite Z.min_r by lia.
  replace (Z.to_nat 0) with 0%nat by reflexivity.
  replace (Z.to_nat (Z.of_nat (String.length s) - 0))
    with (String.length s) by lia.
  apply substring_all.
Qed.

Lemma slice_short_tail (s : string) :
  (String.length s <= 4)%nat -> slice s (-4) None = s.
Proof.
  intros Hlen. unfold slice, slice_index.
  replace (-4 <? 0) with true by reflexivity.
  rewrite Z.max_r by lia.
  replace (Z.to_nat 0) with 0%nat by reflexivity.
  replace (Z.to_nat (Z.of_nat (String.length s) - 0))
    with (String.length s) by lia.
  apply substring_all.
Qed.

Lemma truncateAddress_long (s : string) :
  (10 <= String.length s)%nat ->
  exists head mid tail,
    s = head +:+ mid +:+ tail
    /\ String.length head = 6%nat
    /\ String.length tail = 4%nat
    /\ Server.truncateAddress (JStr s) = inr (JStr (head +:+ "..." +:+ tail)).
Proof.
  intros Hlen.
  destruct (string_split_at 6 s ltac:(lia)) as (head & rest & -> & Hhead).
  rewrite string_length_app in Hlen.
  destruct (string_split_at (String.length rest - 4) rest ltac:(lia))
    as (mid & tail & -> & Hmid).
  rewrite string_length_app in Hlen, Hmid.
  assert (Htail : String.length tail = 4%nat) by lia.
  exists head, mid, tail.
  split; [reflexivity |]. split; [exact Hhead |]. split; [exact Htail |].
  unfold Server.truncateAddress.
  assert (Htruthy : truthy (JStr (head +:+ mid +:+ tail)) = true).
  { destruct head; [discriminate Hhead | reflexivity]. }
  rewrite Htruthy. cbn [negb].
  rewrite slice_head by (rewrite ?string_length_app; lia).
  rewrite <- (string_app_assoc head mid tail).
  rewrite (slice_tail (head +:+ mid) tail Htail).
  reflexivity.
Qed.

(** X18: [truncateAddress], the helper that shortens a wallet address for
    the log.  A falsy address gives [null].  A string of at least ten
    characters gives its first six characters, three dots and its last
    four: thirteen characters, whatever the length.  A string of one to
    four characters is not shortened: it is written out in full before
    and after the dots. *)
Theorem truncateAddress_keeps_six_and_four :
  (forall v, truthy v = false -> Server.truncateAddress v = inr JNull)
  /\ (forall s,
         (10 <= String.length s)%nat ->
         exists head mid tail,
           s = head +:+ mid +:+ tail
           /\ String.length head = 6%nat
           /\ String.length tail = 4%nat
           /\ Server.truncateAddress (JStr s)
              = inr (JStr (head +:+ "..." +:+ tail)))
  /\ (forall s,
         (1 <= String.length s <= 4)%nat ->
         Server.truncateAddress (JStr s) = inr (JStr (s +:+ "..." +:+ s))).
Proof.
  split; [| split].
  - intros v Hv. unfold Server.truncateAddress. rewrite Hv. reflexivity.
  - apply truncateAddress_long.
  - intros s [Hlo Hhi]. unfold Server.truncateAddress.
    assert (Htruthy : truthy (JStr s) = true).
    { destruct s; [cbn in Hlo; lia | reflexivity]. }
    rewrite Htruthy. cbn [negb].
    rewrite slice_short_head by lia. rewrite slice_short_tail by lia.
    reflexivity.
Qed.

Lemma truncateAddress_keeps_six_and_four_witness :
  (exists head mid tail,
      "0x4a15fc613c713FC52E907a77071Ec2d0a392a584" = head +:+ mid +:+ tail
      /\ String.length head = 6%nat
      /\ String.length tail = 4%nat
      /\ Server.truncateAddress
           (JStr "0x4a15fc613c713FC52E907a77071Ec2d0a392a584")
         = inr (JStr (head +:+ "..." +:+ tail)))
  /\ Server.truncateAddress (JStr "0x1") = inr (JStr "0x1...0x1").
Proof.
  destruct truncateAddress_keeps_six_and_four as (_ & Hlong & Hshort).
  split.
  - apply Hlong. cbn. lia.
  - apply Hshort. cbn. lia.
Defined.

(** ** What the validation chains accept *)

Lemma address_value (v : jsval) :
  Forall (fun x => ethereum_text (field_text x) = true) (elements v)
  <-> ethereum_address v \/ array_of ethereum_text v.
Proof.
  rewrite standard_value. split.
  - intros [[Hv H] | H]; [left; apply address_scalar; assumption | right; exact H].
  - intros [H | H]; [left | right; exact H].
    assert (Hv : forall xs, v <> JArr xs)
      by (destruct H as (x & digits & -> & _); discriminate).
    split; [exact Hv | apply address_scalar; assumption].
Qed.

Lemma boolean_value (v : jsval) :
  Forall (fun x => boolean_text (field_text x) = true) (elements v)
  <-> In v boolean_like \/ array_of boolean_text v.
Proof.
  rewrite standard_value. split.
  - intros [[Hv H] | H]; [left; apply boolean_scalar; assumption | right; exact H].
  - intros [H | H]; [left | right; exact H].
    assert (Hv : forall xs, v <> JArr xs)
      by (cbn in H; repeat destruct H as [<- | H]; try discriminate;
          contradiction).
    split; [exact Hv | apply boolean_scalar; assumption].
Qed.


(** X19: the validation chains of [POST /api/prompt] accept a body exactly
    when its prompt is a string of 1 to 10000 characters, its walletAddress
    is absent, a string of "0x" or "0X" and forty hexadecimal digits, or
    an array each of whose elements reads as such a string, and its xmtp
    is absent, one of [true], [false], 1, 0, "true", "false", "1", "0", or
    an array each of whose elements reads as "true", "false", "1" or "0".
    An array is let through element by element, the empty one always; an
    element reads as its text, an array among the elements as its first
    element. *)
Theorem prompt_request_is_accepted_exactly_when_well_formed (req : Request) :
  validationResult Server.prompt_chains req = []
  <-> (exists s, prop (body req) "prompt" = JStr s
                 /\ 1 <= Z.of_nat (String.length s) <= 10000)
      /\ (prop (body req) "walletAddress" = JUndefined
          \/ ethereum_address (prop (body req) "walletAddress")
          \/ array_of ethereum_text (prop (body req) "walletAddress"))
      /\ (prop (body req) "xmtp" = JUndefined
          \/ In (prop (body req) "xmtp") boolean_like
          \/ array_of boolean_text (prop (body req) "xmtp")).
Proof.
  rewrite validationResult_nil. unfold Server.prompt_chains.
  rewrite !Forall_cons.
  rewrite (required_string_passes req "body" "prompt" 1 10000).
  unfold isEthereumAddress, isBoolean.
  rewrite !optional_standard_passes.
  rewrite address_value, boolean_value.
  change (source_of "body" req) with (body req).
  split.
  - intros (Hp & Hw & Hx & _). split; [exact Hp |]. split; assumption.
  - intros (Hp & Hw & Hx). split; [exact Hp |].
    split; [exact Hw |]. split; [exact Hx | constructor].
Qed.

(** X20: the validation chain of [GET /api/job/:jobId] accepts a request
    exactly when the job identifier of its path is a string of 1 to 100
    characters. *)
Theorem job_request_is_accepted_exactly_when_well_formed (req : Request) :
  validationResult Server.job_chains req = []
  <-> exists s, prop (params req) "jobId" = JStr s
                /\ (1 <= String.length s <= 100)%nat.
Proof.
  rewrite validationResult_nil. unfold Server.job_chains.
  rewrite !Forall_cons.
  rewrite (required_string_passes req "params" "jobId" 1 100).
  change (source_of "params" req) with (params req).
  split.
  - intros ((s & Hs & Hl) & _). exists s. split; [exact Hs | lia].
  - intros (s & Hs & Hl). split; [| constructor].
    exists s. split; [exact Hs | lia].
Qed.



(** ** What the [catch] blocks make of a thrown value *)

(** X22: a rejection that carries a string message is given exactly one
    kind by the [catch] block that receives it, the kind of the
    first pattern of the block's own table that the message holds
    (POST /api/prompt: "402" then "401"; GET /api/job: "404";
    POST /api/prompt-and-wait: "timeout" then "402"; the other blocks: no
    pattern), and INTERNAL (status 500) when it holds none.  The [catch]
    block of the proxies answers 500 for every thrown value whose message
    can be serialised.  The [catch] blocks of the business routes of
    server.js are not total: they throw in their turn on [undefined] and
    [null], and the three that test patterns also on a value whose message
    is neither a string nor an array; nothing is answered then.  At every
    client call of every business handler of the three servers a rejection
    goes to the [catch] block at once, and against a client that rejects
    with [Error] objects the handler always answers. *)
Theorem rejections_are_classified_by_message (now : string) :
  (forall c v m,
      prop v "message" = JStr m ->
      catch_block now c v = inr (catch_branch now c {| message := m |})
      /\ kind_of (catch_branch now c {| message := m |})
         = Some (classify (branch_table c) m))
  /\ (forall c m,
        Forall (fun p => includes p m = false) (recognised c) ->
        classify (branch_table c) m = INTERNAL)
  /\ (forall v,
        has_bigint (prop v "message") = false ->
        exists r, catch_block now catch_proxy v = inr r
                  /\ kind_of r = Some INTERNAL)
  /\ (forall c v,
        c <> catch_proxy -> nullish v = true ->
        catch_block now c v = inl (type_error v "message"))
  /\ (forall c v,
        branch_table c <> [] ->
        has_includes (prop v "message") = false ->
        exists e, catch_block now c v = inl e)
  /\ (forall uptime r c req d,
        server_catch r = Some c ->
        caught (catch_branch now c) (Server.handler now uptime r req)
        /\ follow (catch_block now c) (errors_only d) []
                  (Server.handler now uptime r req)
           = (calls d (Server.handler now uptime r req),
              inr (reply d (Server.handler now uptime r req))))
  /\ (forall env BigInt r req d,
        caught (catch_branch now catch_proxy) (ProxyA.handler env BigInt r req)
        /\ follow (catch_block now catch_proxy) (errors_only d) []
                  (ProxyA.handler env BigInt r req)
           = (calls d (ProxyA.handler env BigInt r req),
              inr (reply d (ProxyA.handler env BigInt r req))))
  /\ (forall env r req d,
        caught (catch_branch now catch_proxy) (ProxyB.handler env r req)
        /\ follow (catch_block now catch_proxy) (errors_only d) []
                  (ProxyB.handler env r req)
           = (calls d (ProxyB.handler env r req),
              inr (reply d (ProxyB.handler env r req)))).
Proof.
  split; [| split; [| split; [| split; [| split; [| split; [| split]]]]]].
  - intros c v m Hm. split.
    + apply catch_block_message, Hm.
    + apply (catch_branch_classified now c {| message := m |}).
  - apply classify_fallback.
  - intros v. apply proxy_block_answers.
  - apply server_block_throws_on_nullish.
  - apply cascade_throws_without_includes.
  - intros uptime r c req d Hc.
    pose proof (server_handler_caught now uptime r c req Hc) as Hcaught.
    split; [exact Hcaught |].
    apply (follow_errors_only (catch_branch now c)); [exact Hcaught |].
    intros e. apply catch_block_error.
  - intros env BigInt r req d.
    pose proof (proxy_a_caught env BigInt r req) as Hcaught.
    split; [exact Hcaught |].
    apply (follow_errors_only (catch_branch now catch_proxy)); [exact Hcaught |].
    intros e. apply catch_block_error.
  - intros env r req d.
    pose proof (proxy_b_caught env r req) as Hcaught.
    split; [exact Hcaught |].
    apply (follow_errors_only (catch_branch now catch_proxy)); [exact Hcaught |].
    intros e. apply catch_block_error.
Qed.

Lemma rejections_are_classified_by_message_witness :
  catch_block "t1" catch_prompt_and_wait
    (JObj [("message", JStr "timeout while paying: status 402");
           ("status", JNum 402)])
  = inr (Server.prompt_and_wait_failed "t1"
           {| message := "timeout while paying: status 402" |})
  /\ kind_of (Server.prompt_and_wait_failed "t1"
                {| message := "timeout while paying: status 402" |})
     = Some TIMEOUT
  /\ follow (catch_block "t1" catch_job)
            (errors_only (rejecting "no such job: 404")) []
            (Server.handler "t1" (JNum 1) Server.job (job_request "job_1"))
     = ([job_call (job_request "job_1")],
        inr (Server.job_failed "t1" {| message := "no such job: 404" |})).
Proof.
  pose proof (rejections_are_classified_by_message "t1")
    as (Hkind & _ & _ & _ & _ & Hserver & _).
  split; [| split].
  - apply (Hkind catch_prompt_and_wait). reflexivity.
  - apply (Hkind catch_prompt_and_wait
             (JObj [("message", JStr "timeout while paying: status 402")])).
    reflexivity.
  - destruct (Hserver (JNum 1) Server.job catch_job (job_request "job_1")
                (rejecting "no such job: 404") eq_refl) as [_ Hfollow].
    rewrite Hfollow. vm_compute. reflexivity.
Defined.

(** ** Arrays in the bounds of [POST /api/prompt-and-wait] *)


